(** * HSM user experience: policy approval and the locked interaction loop

    A shallow embedding of [shared/hsm_ux.py]: the policy approval action
    [ApproveHSMPolicy], the loader [start_hsm_approval] and the lockdown
    screen [hsmUxInteraction], together with the properties of the approval
    protocol and of the lockdown loop.

    Python objects live in an explicit store; calls into other modules are
    recorded as events and take their answer (a value or an exception) from
    an environment; exceptions are threaded through a small
    reader/state/error monad. *)

From Stdlib Require Import String Ascii ZArith QArith Lia Bool DecimalString.
From stdpp Require Import base list strings.

Local Open Scope string_scope.
Local Open Scope list_scope.

(** ** Exceptions and answers of the collaborators *)

(** Exceptions raised by code outside this module. [Foreign] stands for
    any other exception class; it carries the text that [str(exc)] gives. *)
Inductive ext_exn : Type :=
| AbortInteraction
| QueueEmpty
| Foreign (descr : string).

(** Exceptions seen inside this module: those of the collaborators, the
    [ValueError]s this module raises itself, and those of the Python
    run-time. [BadReference] is a reference to an object the store does not
    hold; Python cannot produce one, it keeps the store operations total. *)
Inductive exn : Type :=
| External (e : ext_exn)
| ValueError (msg : string)
| IndexError
| AttributeError
| AssertionError
| BadReference.

(** The answer of a call into another module. *)
Inductive outcome (A : Type) : Type :=
| Returns (a : A)
| Throws (e : ext_exn).
Arguments Returns {A} a.
Arguments Throws {A} e.

Inductive result (A : Type) : Type :=
| Ret (a : A)
| Raise (e : exn).
Arguments Ret {A} a.
Arguments Raise {A} e.

(** ** The objects *)

(** The policy object, as far as this module consults it: [explain] gives
    the text that [policy.explain(msg)] writes (or the exception it
    raises), [time_left] is the answer of [get_time_left()]. *)
Record HSMPolicy : Type := {
  explain : outcome string;
  approvals : nat;
  refusals : nat;
  time_left : option Z
}.

(** An [ApproveHSMPolicy] instance with the flags it inherits from
    [UserAuthorizedAction]. *)
Record ApproveHSMPolicy : Type := {
  policy : HSMPolicy;
  new_file : bool;
  refused : bool;
  failed : option string;
  ux_done : bool
}.

(** The attributes of the [hsmUxInteraction] singleton. [percent] and
    [last_percent] are floats in the source; a float stands here for the
    rational number it is. *)
Record hsmUxInteraction : Type := {
  busy_text : option string;
  percent : option Q;
  last_percent : option Q;
  digits : string;
  phase : nat;
  test_restart : bool
}.

(** References to [ApproveHSMPolicy] objects are positions in the heap. *)
Definition ref : Type := nat.

(** The process-wide state: the objects, the class attribute
    [UserAuthorizedAction.active_request], [main.hsm_active] and the
    singleton [hsm_ux_obj]. *)
Record World : Type := {
  heap : list ApproveHSMPolicy;
  active_request : option ref;
  hsm_active : option HSMPolicy;
  hsm_ux_obj : hsmUxInteraction
}.

(** Drawing primitives of the display. *)
Inductive draw : Type :=
| RestoreBackground
| Clear
| Text (x : option Z) (y : Z) (msg : string)
| TextTiny (x y : Z) (msg : string)
| HLine (y : Z)
| Line (x0 y0 x1 y1 : Z)
| Heartbeat (x0 y0 x1 y1 : Z)
| ClearRect (x y w h : Z)
| BarLine (x y w : Z) (colour : bool)
| DisShow
| SaveBackground.

(** Calls that leave this module, in the order they are made. *)
Inductive event : Type :=
| EvExplain (p : HSMPolicy)
| EvStory (msg : string) (title : option string) (escape : option string) (strict_escape : bool)
| EvRandom (n : nat)
| EvPrintException (e : exn)
| EvCleanup
| EvDone (r : ref)
| EvActivate (p : HSMPolicy) (is_new : bool)
| EvUxReset
| EvUxPush (r : ref)
| EvAbortAndGoto (r : ref)
| EvReadTransfer (len : Z)
| EvReadFile (name : string)
| EvPrint (msg : string)
| EvInstallHooks
| EvDraw (d : draw)
| EvGcCollect
| EvPoll
| EvLocalPin (code : string)
| EvSleep (ms : nat)
| EvInteract (r : ref)
| EvNumpadStart
| EvGotoTopMenu.

(** ** The monad

    A computation reads the environment [E] that answers its external
    calls, transforms the world, and yields a value or an exception and the
    events it made. A raised exception keeps the world reached so far. *)
Definition M (E A : Type) : Type := E -> World -> result A * World * list event.

Definition ret {E A} (a : A) : M E A := fun _ w => (Ret a, w, []).

Definition raise {E A} (x : exn) : M E A := fun _ w => (Raise x, w, []).

Definition bind {E A B} (m : M E A) (k : A -> M E B) : M E B :=
  fun e w =>
    match m e w with
    | (Ret a, w1, t1) =>
        match k a e w1 with
        | (r, w2, t2) => (r, w2, t1 ++ t2)
        end
    | (Raise x, w1, t1) => (Raise x, w1, t1)
    end.

(** [try: m  except BaseException as exc: h exc]; a handler that re-raises
    models an [except] clause that does not match. *)
Definition try_except {E A} (m : M E A) (h : exn -> M E A) : M E A :=
  fun e w =>
    match m e w with
    | (Ret a, w1, t1) => (Ret a, w1, t1)
    | (Raise x, w1, t1) =>
        match h x e w1 with
        | (r, w2, t2) => (r, w2, t1 ++ t2)
        end
    end.

Definition emit {E} (ev : event) : M E unit := fun _ w => (Ret tt, w, [ev]).

Definition gets {E A} (f : World -> A) : M E A := fun _ w => (Ret (f w), w, []).

Definition modify {E} (f : World -> World) : M E unit := fun _ w => (Ret tt, f w, []).

(** An external call: the event is recorded, the environment answers. *)
Definition call {E A} (ev : event) (answer : E -> outcome A) : M E A :=
  fun e w =>
    match answer e with
    | Returns a => (Ret a, w, [ev])
    | Throws x => (Raise (External x), w, [ev])
    end.

(** Run a computation against a part of the environment. *)
Definition local {E E' A} (f : E -> E') (m : M E' A) : M E A :=
  fun e w => m (f e) w.

Declare Scope monad_scope.
Delimit Scope monad_scope with monad.
Notation "x <- m ;; k" := (bind m (fun x => k))
  (at level 100, m at next level, right associativity) : monad_scope.
Notation "m ;; k" := (bind m (fun _ => k))
  (at level 100, right associativity) : monad_scope.
Local Open Scope monad_scope.

(** ** Store operations *)

Definition set_refused (b : bool) (a : ApproveHSMPolicy) : ApproveHSMPolicy :=
  {| policy := policy a; new_file := new_file a; refused := b;
     failed := failed a; ux_done := ux_done a |}.

Definition set_failed (f : option string) (a : ApproveHSMPolicy) : ApproveHSMPolicy :=
  {| policy := policy a; new_file := new_file a; refused := refused a;
     failed := f; ux_done := ux_done a |}.

Definition set_ux_done (b : bool) (a : ApproveHSMPolicy) : ApproveHSMPolicy :=
  {| policy := policy a; new_file := new_file a; refused := refused a;
     failed := failed a; ux_done := b |}.

Definition set_heap (h : list ApproveHSMPolicy) (w : World) : World :=
  {| heap := h; active_request := active_request w;
     hsm_active := hsm_active w; hsm_ux_obj := hsm_ux_obj w |}.

Definition set_active_request (r : option ref) (w : World) : World :=
  {| heap := heap w; active_request := r;
     hsm_active := hsm_active w; hsm_ux_obj := hsm_ux_obj w |}.

Definition set_hsm_active (p : option HSMPolicy) (w : World) : World :=
  {| heap := heap w; active_request := active_request w;
     hsm_active := p; hsm_ux_obj := hsm_ux_obj w |}.

Definition set_hsm_ux_obj (u : hsmUxInteraction) (w : World) : World :=
  {| heap := heap w; active_request := active_request w;
     hsm_active := hsm_active w; hsm_ux_obj := u |}.

(** Replace the object behind a reference. *)
Definition put_obj (self : ref) (a : ApproveHSMPolicy) (w : World) : World :=
  set_heap (<[self := a]> (heap w)) w.

(** [self.attr] *)
Definition getattr {E A} (self : ref) (attr : ApproveHSMPolicy -> A) : M E A :=
  fun _ w =>
    match heap w !! self with
    | Some a => (Ret (attr a), w, [])
    | None => (Raise BadReference, w, [])
    end.

(** [self.attr = v], as an update [f] of the object *)
Definition setattr {E} (self : ref) (f : ApproveHSMPolicy -> ApproveHSMPolicy) : M E unit :=
  fun _ w =>
    match heap w !! self with
    | Some a => (Ret tt, put_obj self (f a) w, [])
    | None => (Raise BadReference, w, [])
    end.

(** ** Collaborators of the approval *)

(** Modelled from the spec: [UserAuthorizedAction.cleanup] lives in the
    [auth] module; the active PendingAction slot is "cleared before a new
    one is created, and cleared again once the session moves into
    lockdown". *)
Definition UserAuthorizedAction_cleanup {E} : M E unit :=
  emit EvCleanup ;;
  modify (set_active_request None).

(** Modelled from the spec: [HSMPolicy.activate] lives in the [hsm] module;
    after activation the policy is owned "by process-wide session state",
    which is [main.hsm_active], the object that [show] reads. *)
Definition HSMPolicy_activate {E} (answer : E -> outcome unit)
    (p : HSMPolicy) (is_new : bool) : M E unit :=
  call (EvActivate p is_new) answer ;;
  modify (set_hsm_active (Some p)).

(** What the outside answers during one run of [ApproveHSMPolicy.interact]:
    the gesture that ends each story, the number drawn by
    [tcc.random.uniform], and the answers of [self.done()] and
    [policy.activate]. *)
Record approve_env : Type := {
  ae_story1 : outcome string;
  ae_random : outcome nat;
  ae_story2 : outcome string;
  ae_done : outcome unit;
  ae_activate : outcome unit
}.

(** ** ApproveHSMPolicy *)

Definition title : string := "Start HSM?".

Definition LF : string := String "010" EmptyString.

Definition confirm_alphabet : string := "12346".

(** [s[i]] for a non-negative index *)
Definition str_index {E} (s : string) (i : nat) : M E string :=
  match String.get i s with
  | Some c => ret (String c EmptyString)
  | None => raise IndexError
  end.

Definition last_chance (confirm_char : string) : string :=
  "Last chance. You are defining a new policy which allows the Coldcard to sign specific transactions without any further user approval."
  +:+ LF +:+ LF +:+ "Press " +:+ confirm_char +:+ " to save policy and enable HSM mode.".

(** The body of the [try] block of [ApproveHSMPolicy.interact]: the
    presentation steps. The [finally: del msg] clause has no effect on the
    objects and is left out. *)
Definition interact_try_body (self : ref) : M approve_env unit :=
  setattr self (set_refused true) ;;
  p <- getattr self policy ;;
  text <- call (EvExplain p) (fun _ => explain p) ;;
  let msg := text +:+ LF +:+ LF +:+ "Press OK to enable HSM mode." in
  ch <- try_except
          (call (EvStory msg (Some title) None false) ae_story1)
          (fun exc =>
             match exc with
             | External AbortInteraction => ret "x"
             | _ => raise exc
             end) ;;
  setattr self (set_refused (negb (ch =? "y")%string)) ;;
  is_refused <- getattr self refused ;;
  is_new <- getattr self new_file ;;
  if negb is_refused && is_new then
    r <- call (EvRandom 5) ae_random ;;
    confirm_char <- str_index confirm_alphabet r ;;
    let msg := last_chance confirm_char in
    ch <- call (EvStory msg (Some title) (Some ("x" +:+ confirm_char)) true)
               ae_story2 ;;
    setattr self (set_refused (negb (ch =? confirm_char)%string))
  else ret tt.

(** The [except BaseException as exc] clause of [ApproveHSMPolicy.interact]. *)
Definition interact_except (self : ref) (exc : exn) : M approve_env unit :=
  setattr self (set_failed (Some "Exception")) ;;
  emit (EvPrintException exc) ;;
  setattr self (set_refused true).

Definition ApproveHSMPolicy_interact (self : ref) : M approve_env unit :=
  try_except (interact_try_body self) (interact_except self) ;;
  setattr self (set_ux_done true) ;;
  UserAuthorizedAction_cleanup ;;
  is_refused <- getattr self refused ;;
  if is_refused then
    call (EvDone self) ae_done
  else
    p <- getattr self policy ;;
    is_new <- getattr self new_file ;;
    HSMPolicy_activate ae_activate p is_new ;;
    emit EvUxReset.

(** Observations on a finished run. *)

Definition is_activate (ev : event) : bool :=
  match ev with EvActivate _ _ => true | _ => false end.

Definition is_random (ev : event) : bool :=
  match ev with EvRandom _ => true | _ => false end.

Definition is_story (ev : event) : bool :=
  match ev with EvStory _ _ _ _ => true | _ => false end.

Definition count_events (f : event -> bool) (t : list event) : nat :=
  length (List.filter f t).

(** The token asked for by a story with a strict escape: the characters of
    [escape] after the leading ['x']. *)
Definition story_token (ev : event) : option string :=
  match ev with
  | EvStory _ _ (Some (String _ tok)) true => Some tok
  | _ => None
  end.

(** The tokens the stories of a run asked for. *)
Definition confirmation_tokens (t : list event) : list string :=
  omap story_token t.

(** Terminal(approved) and Terminal(refused) of the action [self]. *)
Definition terminal_approved (self : ref) (w : World) : Prop :=
  exists a, heap w !! self = Some a /\ ux_done a = true /\ refused a = false.

Definition terminal_refused (self : ref) (w : World) : Prop :=
  exists a, heap w !! self = Some a /\ ux_done a = true /\ refused a = true.

(** The three ways the presentation can go wrong: the first gesture is not
    acceptance, the first story is interrupted, or some statement of the
    [try] block raises. *)
Definition first_gesture_rejects (a : ApproveHSMPolicy) (e : approve_env) : Prop :=
  exists text ch,
    explain (policy a) = Returns text /\ ae_story1 e = Returns ch /\ ch <> "y".

Definition first_story_interrupted (a : ApproveHSMPolicy) (e : approve_env) : Prop :=
  exists text,
    explain (policy a) = Returns text /\ ae_story1 e = Throws AbortInteraction.

Definition presentation_raises (self : ref) (e : approve_env) (w : World) (x : exn) : Prop :=
  exists w1 t1, interact_try_body self e w = (Raise x, w1, t1).


(** ** Reasoning about runs

    [wp m e w Q]: running [m] in environment [e] from world [w] gives a
    result, a final world and a list of events that satisfy [Q]. Every
    computation is a total function, so [wp] always speaks about the one
    run there is. *)
Definition wp {E A} (m : M E A) (e : E) (w : World)
    (Q : result A -> World -> list event -> Prop) : Prop :=
  Q (m e w).1.1 (m e w).1.2 (m e w).2.

(** ** The lockdown screen: data *)

(** see [../graphics/cylon.py]: the bytes of the [cylon] literal *)
Definition cylon : list nat :=
  [58; 65; 72; 78; 84; 90; 96; 101; 105; 109; 112; 114; 115; 116; 116; 115;
   113; 110; 107; 103; 98; 93; 87; 81; 75; 68; 61; 55; 48; 41; 35; 29; 23;
   18; 13; 9; 6; 3; 1; 0; 0; 1; 2; 4; 7; 11; 15; 20; 26; 32; 38; 44; 51].

Definition set_busy_text (v : option string) (u : hsmUxInteraction) : hsmUxInteraction :=
  {| busy_text := v; percent := percent u; last_percent := last_percent u;
     digits := digits u; phase := phase u; test_restart := test_restart u |}.

Definition set_percent (v : option Q) (u : hsmUxInteraction) : hsmUxInteraction :=
  {| busy_text := busy_text u; percent := v; last_percent := last_percent u;
     digits := digits u; phase := phase u; test_restart := test_restart u |}.

Definition set_last_percent (v : option Q) (u : hsmUxInteraction) : hsmUxInteraction :=
  {| busy_text := busy_text u; percent := percent u; last_percent := v;
     digits := digits u; phase := phase u; test_restart := test_restart u |}.

Definition set_digits (v : string) (u : hsmUxInteraction) : hsmUxInteraction :=
  {| busy_text := busy_text u; percent := percent u; last_percent := last_percent u;
     digits := v; phase := phase u; test_restart := test_restart u |}.

Definition set_phase (v : nat) (u : hsmUxInteraction) : hsmUxInteraction :=
  {| busy_text := busy_text u; percent := percent u; last_percent := last_percent u;
     digits := digits u; phase := v; test_restart := test_restart u |}.

Definition set_test_restart (v : bool) (u : hsmUxInteraction) : hsmUxInteraction :=
  {| busy_text := busy_text u; percent := percent u; last_percent := last_percent u;
     digits := digits u; phase := phase u; test_restart := v |}.

(** [self.attr = ...] and [self.attr] on the singleton *)
Definition modify_ux {E} (f : hsmUxInteraction -> hsmUxInteraction) : M E unit :=
  modify (fun w => set_hsm_ux_obj (f (hsm_ux_obj w)) w).

Definition self_attr {E A} (attr : hsmUxInteraction -> A) : M E A :=
  gets (fun w => attr (hsm_ux_obj w)).

(** Read the environment. *)
Definition ask {E A} (f : E -> A) : M E A := fun e w => (Ret (f e), w, []).

(** The parts of [show] in which a drawing primitive can fail. *)
Inductive show_stage : Type :=
| StatsStage
| HeartbeatStage
| DigitsStage
| BusyStage.

Definition show_stage_eqb (s1 s2 : show_stage) : bool :=
  match s1, s2 with
  | StatsStage, StatsStage
  | HeartbeatStage, HeartbeatStage
  | DigitsStage, DigitsStage
  | BusyStage, BusyStage => true
  | _, _ => false
  end.

(** A drawing call made in [stage]; the environment names the stage whose
    drawing raises, if any. *)
Definition dis (stage : show_stage) (d : draw) : M (option show_stage) unit :=
  call (EvDraw d)
       (fun fault =>
          match fault with
          | Some s => if show_stage_eqb s stage then Throws (Foreign "display") else Returns tt
          | None => Returns tt
          end).

(** What the outside answers during one iteration of the lockdown loop:
    whether a drawing primitive of [show] fails, the answer of
    [numpad.get_nowait()], of [local_pin_entered] and of [sleep_ms], whether
    another task set [test_restart] while the loop slept, and the answers
    given to the pending action if it is stepped. *)
Record tick_env : Type := {
  te_draw_fault : option show_stage;
  te_poll : outcome string;
  te_pin : outcome unit;
  te_sleep : outcome unit;
  te_restart : bool;
  te_request : approve_env
}.

(** How a bounded run of [hsmUxInteraction.interact] ends when no exception
    escapes: the [while] loop was left, or the iterations given were used
    up with the loop still going. *)
Inductive run_status : Type :=
| LoopLeft
| StillLooping.

(** What the outside answers during [start_hsm_approval]. *)
Record load_env : Type := {
  le_transfer : outcome string;
  le_file : outcome string;
  le_story : outcome string
}.

(** The answer of a collaborator that is given as a function. *)
Definition answer {E A} (o : outcome A) : M E A :=
  fun _ w =>
    match o with
    | Returns a => (Ret a, w, [])
    | Throws x => (Raise (External x), w, [])
    end.

(** [str(n)] and ['%d' % z] *)
Definition str_nat (n : nat) : string := NilZero.string_of_uint (Nat.to_uint n).

Definition str_Z (z : Z) : string := NilZero.string_of_int (Z.to_int z).

(** [s * n] *)
Fixpoint str_mul (s : string) (n : nat) : string :=
  match n with
  | O => ""
  | S n' => s +:+ str_mul s n'
  end.

(** [l[i]] for a non-negative index *)
Definition list_index {E} (l : list nat) (i : nat) : M E nat :=
  match l !! i with
  | Some x => ret x
  | None => raise IndexError
  end.

(** [int(q)]: truncation towards zero *)
Definition Qtrunc (q : Q) : Z := Z.quot (Qnum q) (Zpos (Qden q)).

(** The float literal [0.995]. Floats are IEEE doubles, and the double
    nearest to 0.995 is 8962163258467287 / 2^53, a little below 995/1000.
    Floats compare as the rationals they are, and the product
    [128 * percent] of a power of two and a float is exact. *)
Definition float_0_995 : Q := 8962163258467287 # 9007199254740992.

(** [str(exc)] for the exceptions the loader can catch *)
Definition exn_str (x : exn) : string :=
  match x with
  | ValueError msg => msg
  | External (Foreign descr) => descr
  | _ => ""
  end.

(** [ApproveHSMPolicy(policy, new_file)].
    Modelled from the spec: [UserAuthorizedAction.__init__] lives in the
    [auth] module; a PendingAction carries "refused (bool, defaults true
    until explicitly cleared), failed (optional failure description), done
    (bool, set once terminal)". *)
Definition ApproveHSMPolicy_new {E} (p : HSMPolicy) (is_new : bool) : M E ref :=
  fun _ w =>
    (Ret (length (heap w)),
     set_heap (heap w ++ [{| policy := p; new_file := is_new; refused := true;
                             failed := None; ux_done := false |}]) w,
     []).

(** ** Sample inputs *)

Definition mk_policy (text : string) : HSMPolicy :=
  {| explain := Returns text; approvals := 0; refusals := 0; time_left := None |}.

Definition mk_request (p : HSMPolicy) (is_new : bool) : ApproveHSMPolicy :=
  {| policy := p; new_file := is_new; refused := true; failed := None; ux_done := false |}.

Definition fresh_ux : hsmUxInteraction :=
  {| busy_text := None; percent := None; last_percent := None;
     digits := ""; phase := 0; test_restart := false |}.

Definition demo_world (is_new : bool) : World :=
  {| heap := [mk_request (mk_policy "policy") is_new]; active_request := Some 0;
     hsm_active := None; hsm_ux_obj := fresh_ux |}.

Definition demo_env (s1 : outcome string) (r : nat) (s2 : outcome string) : approve_env :=
  {| ae_story1 := s1; ae_random := Returns r; ae_story2 := s2;
     ae_done := Returns tt; ae_activate := Returns tt |}.

Definition demo_active_world (d : string) (req : option ref) (finished : bool) : World :=
  {| heap := [set_ux_done finished (mk_request (mk_policy "policy") false)];
     active_request := req;
     hsm_active := Some (mk_policy "active");
     hsm_ux_obj := set_digits d fresh_ux |}.

Definition demo_tick (fault : option show_stage) (poll : outcome string) : tick_env :=
  {| te_draw_fault := fault; te_poll := poll; te_pin := Returns tt;
     te_sleep := Returns tt; te_restart := false;
     te_request := demo_env (Returns "y") 0 (Returns "1") |}.

Definition demo_load (transfer file : outcome string) : load_env :=
  {| le_transfer := transfer; le_file := file; le_story := Returns "y" |}.

(** Sample values of the imported names: a six digit PIN, control-C as the
    abort key, and a JSON reader that accepts texts starting with a brace
    and a policy reader that accepts texts longer than two characters. *)
Definition demo_abort_key : string := String "003" EmptyString.

Definition demo_pretty (z : Z) : string := str_Z z +:+ "s".

Definition demo_problem (x : exn) : string := "hsm.py:1".

Definition demo_loads (text : string) : outcome string :=
  match text with
  | String "{" _ => Returns text
  | _ => Throws (Foreign "syntax error in JSON")
  end.

Definition demo_policy_load (js : string) : outcome HSMPolicy :=
  if (String.length js <=? 2)%nat then Throws (Foreign "missing fields")
  else Returns (mk_policy js).

Definition demo_text_end (x : Z) (lab : string) : Z :=
  (x + 4 * Z.of_nat (String.length lab))%Z.

Section Firmware.

Set Default Proof Using "Type".

(** Names this module imports and whose definitions are elsewhere. *)
Variable LOCAL_PIN_LENGTH : nat.
Variable ABORT_KEY : string.
Variable POLICY_FNAME : string.
Variable is_simulator : bool.
Variable pretty_short_delay : Z -> string.
Variable problem_file_line : exn -> string.
Variable JSON : Type.
Variable ujson_loads : string -> outcome JSON.
Variable HSMPolicy_load : JSON -> outcome HSMPolicy.
(** what [dis.text(x, y, lab, FontTiny)] returns: the x after the text *)
Variable tiny_text_end : Z -> string -> Z.

(** *** start_hsm_approval *)

(** The text [err] built in the [except] clause. *)
Definition policy_invalid (exc : exn) : string :=
  "HSM Policy invalid: " +:+ problem_file_line exc +:+ ": " +:+ exn_str exc.

Definition start_hsm_approval (sf_len : Z) (usb_mode startup_mode : bool)
  : M load_env (option ref) :=
  UserAuthorizedAction_cleanup ;;
  source <-
    (if negb (sf_len =? 0)%Z then
       json <- call (EvReadTransfer sf_len) le_transfer ;;
       ret (json, true)
     else
       json <- try_except
                 (call (EvReadFile POLICY_FNAME) le_file)
                 (fun _ => raise (ValueError "No existing policy")) ;;
       ret (json, false)) ;;
  let json := fst source in
  let is_new := snd source in
  parsed <-
    try_except
      (js_policy <- try_except
                      (answer (ujson_loads json))
                      (fun _ => raise (ValueError "JSON parse fail")) ;;
       p <- answer (HSMPolicy_load js_policy) ;;
       ret (Some p))
      (fun exc =>
         let err := policy_invalid exc in
         if usb_mode then raise (ValueError err)
         else
           emit (EvPrint err) ;;
           call (EvStory ("Cannot start HSM." +:+ LF +:+ LF +:+ err) None None false)
                le_story ;;
           ret None) ;;
  match parsed with
  | None => ret None
  | Some p =>
      ar <- ApproveHSMPolicy_new p is_new ;;
      modify (set_active_request (Some ar)) ;;
      if startup_mode then ret (Some ar)
      else
        (if usb_mode then emit (EvAbortAndGoto ar) else emit (EvUxPush ar)) ;;
        ret (Some ar)
  end.

(** *** hsmUxInteraction *)

Definition background_label (x : Z) (lab : string) (xoff : Z) : M unit Z :=
  let y := 28%Z in
  emit (EvDraw (TextTiny (x + xoff) (y - 7) lab)) ;;
  let nx := tiny_text_end (x + xoff) lab in
  let hw := (nx - x)%Z in
  (if (lab =? "REFUSED")%string then
     emit (EvDraw (Line (nx + 2) 0 (nx + 2) (y + 16)))
   else if (xoff =? 0)%Z then
     emit (EvDraw (Line (nx + 2) (y - 12) (nx + 2) (y + 16)))
   else ret tt) ;;
  emit (EvPrint (lab +:+ " @ x=" +:+ str_Z (x + hw / 2 - 2))) ;;
  ret (nx + 7)%Z.

Definition draw_background : M unit unit :=
  emit (EvDraw Clear) ;;
  emit (EvDraw (Text (Some 4%Z) 0 "HSM MODE")) ;;
  emit (EvDraw (HLine 15)) ;;
  emit (EvDraw DisShow) ;;
  x <- background_label 0 "APPROVED" 0 ;;
  x <- background_label x "REFUSED" 0 ;;
  x <- background_label x "PERIOD LEFT" 5 ;;
  emit (EvDraw (HLine (28 + 17))) ;;
  emit (EvDraw (Text (Some 80%Z) 0 "######")) ;;
  emit (EvDraw SaveBackground).

Definition draw_busy (msg : option string) (pct : option Q)
  : M (option show_stage) unit :=
  modify_ux (set_last_percent (Some (1 # 2))) ;;
  let y := 48%Z in
  msg <- match pct with
         | Some v =>
             modify_ux (set_percent (Some v)) ;;
             if Qle_bool float_0_995 v then
               modify_ux (set_percent None) ;;
               modify_ux (set_busy_text None) ;;
               ret None
             else ret msg
         | None => ret msg
         end ;;
  match msg with
  | Some m => modify_ux (set_busy_text (Some m))
  | None => ret tt
  end ;;
  text <- self_attr busy_text ;;
  match text with
  | Some m =>
      dis BusyStage (ClearRect 0 y 128 (64 - y)) ;;
      dis BusyStage (Text None y m)
  | None => ret tt
  end ;;
  pc <- self_attr percent ;;
  match pc with
  | Some v =>
      let x := Qtrunc (128 * v) in
      dis BusyStage (BarLine 0 63 x true) ;;
      dis BusyStage (BarLine (x + 1) 63 127 false)
  | None => ret tt
  end ;;
  dis BusyStage DisShow.

Definition hack_fullscreen (msg : option string) (pct : option Q)
  : M (option show_stage) unit :=
  draw_busy msg pct.

Definition hack_progress_bar (pct : option Q) : M (option show_stage) unit :=
  draw_busy None pct.

Definition draw_stat (x : Z) (val : string) : M (option show_stage) unit :=
  let tw := (7 * Z.of_nat (String.length val))%Z in
  dis StatsStage (Text (Some (x - tw / 2)%Z) (28 + 1) val).

(** The block under the comment "heartbeat display". *)
Definition heartbeat_display : M (option show_stage) unit :=
  ph <- self_attr phase ;;
  modify_ux (set_phase ((ph + 1) mod length cylon)) ;;
  ph <- self_attr phase ;;
  x <- list_index cylon ph ;;
  let x := Z.of_nat x in
  let w := 12%Z in
  dis HeartbeatStage (Heartbeat x 63 (x + w - 1) 63).

Definition show : M (option show_stage) unit :=
  emit (EvDraw RestoreBackground) ;;
  active <- gets hsm_active ;;
  p <- match active with
       | Some p => ret p
       | None => raise AttributeError
       end ;;
  let left := match time_left p with
              | None => " n/a"
              | Some t => if (t =? -1)%Z then " --" else pretty_short_delay t
              end in
  draw_stat 14 (str_nat (approvals p)) ;;
  draw_stat 51 (str_nat (refusals p)) ;;
  draw_stat 96 left ;;
  heartbeat_display ;;
  d <- self_attr digits ;;
  (if negb (d =? "")%string then
     let msg := if (String.length d <? 6)%nat
                then d +:+ str_mul "#" (6 - String.length d)
                else d in
     dis DigitsStage (ClearRect 80 0 (80 + 42) (0 + 14)) ;;
     dis DigitsStage (Text (Some 80%Z) 0 msg)
   else ret tt) ;;
  draw_busy None None.

(** The [if]/[elif] chain on the polled key. *)
Definition handle_key (ch : string) : M tick_env unit :=
  if (ch =? "x")%string then
    modify_ux (set_digits "")
  else if (ch =? "y")%string then
    d <- self_attr digits ;;
    if (String.length d =? LOCAL_PIN_LENGTH)%nat then
      active <- gets hsm_active ;;
      match active with
      | Some _ => call (EvLocalPin d) te_pin
      | None => raise AttributeError
      end ;;
      modify_ux (set_digits "")
    else ret tt
  else if (ch =? ABORT_KEY)%string then
    ret tt
  else
    match ch with
    | String c _ =>
        d <- self_attr digits ;;
        if (String.length d <? LOCAL_PIN_LENGTH)%nat then
          modify_ux (set_digits (d +:+ String c EmptyString))
        else ret tt
    | EmptyString => ret tt
    end.

(** The [try] statement around the poll. The result tells whether the
    iteration goes on to the pending action ([true]) or hits a
    [continue] ([false]). *)
Definition poll_input : M tick_env bool :=
  try_except
    (ch <- call EvPoll te_poll ;;
     handle_key ch ;;
     ret false)
    (fun exc =>
       match exc with
       | External QueueEmpty =>
           call (EvSleep 100) te_sleep ;;
           woken <- ask te_restart ;;
           (if woken then modify_ux (set_test_restart true) else ret tt) ;;
           ret true
       | _ =>
           emit (EvPrintException exc) ;;
           ret false
       end).

(** [req = UserAuthorizedAction.active_request] and what follows. *)
Definition service_request : M tick_env unit :=
  req <- gets active_request ;;
  match req with
  | Some r =>
      finished <- getattr r ux_done ;;
      if negb finished then
        try_except
          (emit (EvInteract r) ;;
           local te_request (ApproveHSMPolicy_interact r))
          (fun exc =>
             match exc with
             | External AbortInteraction => ret tt
             | _ => raise exc
             end)
      else ret tt
  | None => ret tt
  end.

(** One iteration of the [while] loop. *)
Definition loop_body : M tick_env unit :=
  local te_draw_fault show ;;
  emit EvGcCollect ;;
  serve <- poll_input ;;
  if serve then service_request else ret tt.

(** The [while not self.test_restart] loop, for as many iterations as
    there are environments. *)
Fixpoint lockdown_loop (envs : list tick_env) : M unit run_status :=
  restart <- self_attr test_restart ;;
  if restart then ret LoopLeft
  else
    match envs with
    | [] => ret StillLooping
    | e :: rest =>
        local (fun _ => e) loop_body ;;
        lockdown_loop rest
    end.

Definition hsmUxInteraction_interact (envs : list tick_env) : M unit run_status :=
  emit EvInstallHooks ;;
  draw_background ;;
  modify_ux (set_digits "") ;;
  modify_ux (set_test_restart false) ;;
  st <- lockdown_loop envs ;;
  match st with
  | StillLooping => ret StillLooping
  | LoopLeft =>
      (if is_simulator then ret tt else raise AssertionError) ;;
      modify (set_hsm_active None) ;;
      emit EvNumpadStart ;;
      emit EvGotoTopMenu ;;
      ret LoopLeft
  end.

(** *** Notions used by the statements *)

Definition token_alphabet : list string := ["1"; "2"; "3"; "4"; "6"].

(** The loader got the text [json] from its source. *)
Definition read_text (sf_len : Z) (e : load_env) (json : string) : Prop :=
  (sf_len <> 0%Z /\ le_transfer e = Returns json) \/
  (sf_len = 0%Z /\ le_file e = Returns json).

(** A text that [ujson.loads] or [HSMPolicy.load] rejects. *)
Definition malformed (json : string) : Prop :=
  (exists x, ujson_loads json = Throws x) \/
  (exists js x, ujson_loads json = Returns js /\ HSMPolicy_load js = Throws x).

Definition is_ux_insert (ev : event) : bool :=
  match ev with
  | EvUxPush _ | EvAbortAndGoto _ => true
  | _ => false
  end.

Definition is_draw (ev : event) : bool :=
  match ev with EvDraw _ => true | _ => false end.

Definition is_interact (ev : event) : bool :=
  match ev with EvInteract _ => true | _ => false end.

Definition is_poll (ev : event) : bool :=
  match ev with EvPoll => true | _ => false end.

Definition is_local_pin (ev : event) : bool :=
  match ev with EvLocalPin _ => true | _ => false end.

Definition is_goto_top (ev : event) : bool :=
  match ev with EvGotoTopMenu => true | _ => false end.

(** The events that only the lockdown loop makes. *)
Definition is_loop_event (ev : event) : bool :=
  match ev with
  | EvDraw _ | EvGcCollect | EvPoll | EvLocalPin _ | EvSleep _ | EvInteract _
  | EvInstallHooks | EvNumpadStart | EvGotoTopMenu => true
  | _ => false
  end.

(** The polls and the steps of the pending action, in order. *)
Definition polls_and_steps (t : list event) : list event :=
  List.filter (fun ev => is_poll ev || is_interact ev) t.

(** No step of a pending action is due: the slot is empty, or the action
    in it is done. *)
Definition idle (w : World) : Prop :=
  match active_request w with
  | None => True
  | Some r => exists a, heap w !! r = Some a /\ ux_done a = true
  end.

(** The two statements about the loop that the code does not satisfy:
    the pending action is stepped in every iteration in which it is due,
    and no exception ends the loop. *)
Definition pending_served_every_iteration : Prop :=
  forall e w p r a,
    hsm_active w = Some p -> te_draw_fault e = None ->
    te_sleep e = Returns tt ->
    active_request w = Some r -> heap w !! r = Some a -> ux_done a = false ->
    wp loop_body e w (fun _ _ t => polls_and_steps t = [EvPoll; EvInteract r]).

Definition loop_never_raises : Prop :=
  forall envs w,
    is_Some (hsm_active w) ->
    wp (lockdown_loop envs) tt w (fun res _ _ => exists st, res = Ret st).

(** The same world with another heartbeat position, a trace without its
    heartbeat lines, and the computations for which the heartbeat
    position in the initial world matters to nothing but the heartbeat
    position and the heartbeat lines at the end. *)
Definition with_phase (n : nat) (w : World) : World :=
  set_hsm_ux_obj (set_phase n (hsm_ux_obj w)) w.

Definition is_heartbeat (ev : event) : bool :=
  match ev with
  | EvDraw (Heartbeat _ _ _ _) => true
  | _ => false
  end.

Definition without_heartbeat (t : list event) : list event :=
  List.filter (fun ev => negb (is_heartbeat ev)) t.

Definition phase_blind {E A} (m : M E A) : Prop :=
  forall e w n,
    exists n' t',
      m e (with_phase n w) = ((m e w).1.1, with_phase n' (m e w).1.2, t') /\
      without_heartbeat t' = without_heartbeat (m e w).2.

(** *** Notions used by the further properties *)

Definition is_done (ev : event) : bool :=
  match ev with EvDone _ => true | _ => false end.

Definition is_read (ev : event) : bool :=
  match ev with
  | EvReadTransfer _ | EvReadFile _ => true
  | _ => false
  end.

Definition is_read_file (ev : event) : bool :=
  match ev with EvReadFile _ => true | _ => false end.

Definition is_read_transfer (ev : event) : bool :=
  match ev with EvReadTransfer _ => true | _ => false end.

Definition is_refresh (ev : event) : bool :=
  match ev with EvDraw DisShow => true | _ => false end.

Definition is_restore (ev : event) : bool :=
  match ev with EvDraw RestoreBackground => true | _ => false end.

Definition is_save (ev : event) : bool :=
  match ev with EvDraw SaveBackground => true | _ => false end.

(** The text written into the field of the local digits, at the right of
    the top line. *)
Definition digit_feedback (ev : event) : option string :=
  match ev with
  | EvDraw (Text (Some x) y msg) =>
      if (y =? 0)%Z && (x =? 80)%Z then Some msg else None
  | _ => None
  end.

(** A heartbeat line that lies in the bottom row of the display, which is
    128 pixels wide and 64 high, and is twelve pixels long. *)
Definition heartbeat_on_screen (ev : event) : Prop :=
  match ev with
  | EvDraw (Heartbeat x0 y0 x1 y1) =>
      (0 <= x0 /\ x1 = x0 + 11 /\ x1 <= 127 /\ y0 = 63 /\ y1 = 63)%Z
  | _ => True
  end.

(** What the drawing of one label of the background calls. *)
Definition is_label_event (ev : event) : bool :=
  match ev with
  | EvDraw (TextTiny _ _ _) | EvDraw (Line _ _ _ _) | EvPrint _ => true
  | _ => false
  end.

(** What the loop may put on the screen after the background is saved: a
    heartbeat line only in the bottom row, and no new copy into
    [screen_buf]. *)
Definition loop_drawing_ok (ev : event) : Prop :=
  heartbeat_on_screen ev /\ is_save ev = false.

(** The iteration finds the key [ch] in the queue; the display works and
    [local_pin_entered] returns. *)
Definition presses (e : tick_env) (ch : string) : Prop :=
  te_draw_fault e = None /\ te_poll e = Returns ch /\ te_pin e = Returns tt.

(** A key that the loop takes for a digit: not empty, and none of the
    cancel, the confirm and the abort key. *)
Definition is_digit_key (ch : string) : Prop :=
  ch <> "" /\ ch <> "x" /\ ch <> "y" /\ ch <> ABORT_KEY.

(** The first characters of the keys, in order. *)
Fixpoint first_chars (keys : list string) : string :=
  match keys with
  | [] => ""
  | String c _ :: rest => String c (first_chars rest)
  | EmptyString :: rest => first_chars rest
  end.

Definition is_sleep (ev : event) : bool :=
  match ev with EvSleep _ => true | _ => false end.

Definition is_gc (ev : event) : bool :=
  match ev with EvGcCollect => true | _ => false end.

(** The texts in the row of the statistics, with the column each starts
    at. *)
Definition stat_text (ev : event) : option (Z * string) :=
  match ev with
  | EvDraw (Text (Some x) y msg) => if (y =? 29)%Z then Some (x, msg) else None
  | _ => None
  end.

(** A text of characters seven pixels wide that starts at column [x] has
    its middle at column [centre], up to the half pixel that the integer
    division drops. *)
Definition centred (centre x : Z) (val : string) : Prop :=
  (0 <= 2 * x + 7 * Z.of_nat (String.length val) - 2 * centre <= 1)%Z.

Definition is_cleanup (ev : event) : bool :=
  match ev with EvCleanup => true | _ => false end.

Definition is_ux_reset (ev : event) : bool :=
  match ev with EvUxReset => true | _ => false end.
(** ** Rules for [wp] *)

Section WpRules.
Context {E A : Type}.
Implicit Types (e : E) (w : World) (Q : result A -> World -> list event -> Prop).

Lemma wp_run (m : M E A) e w Q r w' t :
  m e w = (r, w', t) -> (wp m e w Q <-> Q r w' t).
Proof. unfold wp. intros ->. reflexivity. Qed.

Lemma wp_conseq (m : M E A) e w Q Q' :
  wp m e w Q -> (forall r w' t, Q r w' t -> Q' r w' t) -> wp m e w Q'.
Proof. unfold wp. auto. Qed.

Lemma wp_and (m : M E A) e w Q Q' :
  wp m e w Q -> wp m e w Q' -> wp m e w (fun r w' t => Q r w' t /\ Q' r w' t).
Proof. unfold wp. auto. Qed.

Lemma wp_ret (a : A) e w Q : Q (Ret a) w [] -> wp (ret a) e w Q.
Proof. exact id. Qed.

Lemma wp_raise (x : exn) e w Q : Q (Raise x) w [] -> wp (raise x) e w Q.
Proof. exact id. Qed.

Lemma wp_bind {B} (m : M E B) (k : B -> M E A) e w Q :
  wp m e w (fun r w1 t1 =>
              match r with
              | Ret b => wp (k b) e w1 (fun r2 w2 t2 => Q r2 w2 (t1 ++ t2))
              | Raise x => Q (Raise x) w1 t1
              end) ->
  wp (bind m k) e w Q.
Proof.
  unfold wp, bind. destruct (m e w) as [[[b|x] w1] t1]; simpl; auto.
  destruct (k b e w1) as [[r2 w2] t2]; simpl; auto.
Qed.

Lemma wp_try (m : M E A) (h : exn -> M E A) e w Q :
  wp m e w (fun r w1 t1 =>
              match r with
              | Ret a => Q (Ret a) w1 t1
              | Raise x => wp (h x) e w1 (fun r2 w2 t2 => Q r2 w2 (t1 ++ t2))
              end) ->
  wp (try_except m h) e w Q.
Proof.
  unfold wp, try_except. destruct (m e w) as [[[a|x] w1] t1]; simpl; auto.
  destruct (h x e w1) as [[r2 w2] t2]; simpl; auto.
Qed.

Lemma wp_call (ev : event) (answer : E -> outcome A) e w Q :
  match answer e with
  | Returns a => Q (Ret a) w [ev]
  | Throws x => Q (Raise (External x)) w [ev]
  end ->
  wp (call ev answer) e w Q.
Proof. unfold wp, call. destruct (answer e); auto. Qed.

Lemma wp_gets (f : World -> A) e w Q : Q (Ret (f w)) w [] -> wp (gets f) e w Q.
Proof. exact id. Qed.

Lemma wp_getattr (self : ref) (attr : ApproveHSMPolicy -> A) a e w Q :
  heap w !! self = Some a -> Q (Ret (attr a)) w [] -> wp (getattr self attr) e w Q.
Proof. unfold wp, getattr. intros ->. auto. Qed.

Lemma wp_ask (f : E -> A) e w Q : Q (Ret (f e)) w [] -> wp (ask f) e w Q.
Proof. exact id. Qed.

Lemma wp_answer (o : outcome A) e w Q :
  match o with
  | Returns a => Q (Ret a) w []
  | Throws x => Q (Raise (External x)) w []
  end ->
  wp (answer o) e w Q.
Proof. unfold wp, answer. destruct o; auto. Qed.

Lemma wp_getattr_any (self : ref) (attr : ApproveHSMPolicy -> A) e w Q :
  (forall a, heap w !! self = Some a -> Q (Ret (attr a)) w []) ->
  (heap w !! self = None -> Q (Raise BadReference) w []) ->
  wp (getattr self attr) e w Q.
Proof.
  intros H1 H2. unfold wp, getattr.
  destruct (heap w !! self) as [a|]; [exact (H1 a eq_refl) | exact (H2 eq_refl)].
Qed.

Lemma wp_local {E'} (f : E -> E') (m : M E' A) e w Q :
  wp m (f e) w Q -> wp (local f m) e w Q.
Proof. exact id. Qed.
End WpRules.

Lemma wp_intro {E A} (m : M E A) (e : E) (w : World)
    (Q : result A -> World -> list event -> Prop) :
  (forall r w' t, m e w = (r, w', t) -> Q r w' t) -> wp m e w Q.
Proof. intros H. unfold wp. destruct (m e w) as [[r w'] t]. by apply H. Qed.

(** Sequencing with a proved specification of the first part. *)
Lemma wp_bind_spec {E A B} (m : M E B) (k : B -> M E A) (e : E) (w : World)
    (P : result B -> World -> list event -> Prop)
    (Q : result A -> World -> list event -> Prop) :
  wp m e w P ->
  (forall r w1 t1, P r w1 t1 ->
     match r with
     | Ret b => wp (k b) e w1 (fun r2 w2 t2 => Q r2 w2 (t1 ++ t2))
     | Raise x => Q (Raise x) w1 t1
     end) ->
  wp (bind m k) e w Q.
Proof. intros Hm Hk. apply wp_bind. exact (wp_conseq m e w P _ Hm Hk). Qed.

Lemma wp_try_spec {E A} (m : M E A) (h : exn -> M E A) (e : E) (w : World)
    (P Q : result A -> World -> list event -> Prop) :
  wp m e w P ->
  (forall r w1 t1, P r w1 t1 ->
     match r with
     | Ret a => Q (Ret a) w1 t1
     | Raise x => wp (h x) e w1 (fun r2 w2 t2 => Q r2 w2 (t1 ++ t2))
     end) ->
  wp (try_except m h) e w Q.
Proof. intros Hm Hk. apply wp_try. exact (wp_conseq m e w P _ Hm Hk). Qed.


Lemma wp_new {E} (p : HSMPolicy) (is_new : bool) (e : E) w
    (Q : result ref -> World -> list event -> Prop) :
  Q (Ret (length (heap w)))
    (set_heap (heap w ++ [{| policy := p; new_file := is_new; refused := true;
                             failed := None; ux_done := false |}]) w) [] ->
  wp (ApproveHSMPolicy_new p is_new) e w Q.
Proof. exact id. Qed.

Section WpUnitRules.
Context {E : Type}.
Implicit Types (e : E) (w : World) (Q : result unit -> World -> list event -> Prop).

Lemma wp_emit (ev : event) e w Q : Q (Ret tt) w [ev] -> wp (emit ev) e w Q.
Proof. exact id. Qed.

Lemma wp_modify (f : World -> World) e w Q : Q (Ret tt) (f w) [] -> wp (modify f) e w Q.
Proof. exact id. Qed.

Lemma wp_setattr_any (self : ref) (f : ApproveHSMPolicy -> ApproveHSMPolicy) e w Q :
  (forall a, heap w !! self = Some a -> Q (Ret tt) (put_obj self (f a) w) []) ->
  (heap w !! self = None -> Q (Raise BadReference) w []) ->
  wp (setattr self f) e w Q.
Proof.
  intros H1 H2. unfold wp, setattr.
  destruct (heap w !! self) as [a|]; [exact (H1 a eq_refl) | exact (H2 eq_refl)].
Qed.

Lemma wp_setattr (self : ref) (f : ApproveHSMPolicy -> ApproveHSMPolicy) a e w Q :
  heap w !! self = Some a -> Q (Ret tt) (put_obj self (f a) w) [] ->
  wp (setattr self f) e w Q.
Proof. unfold wp, setattr. intros ->. auto. Qed.
End WpUnitRules.

(** The store under [put_obj]. *)

Lemma lookup_put_obj self a w :
  is_Some (heap w !! self) -> heap (put_obj self a w) !! self = Some a.
Proof.
  intros H. apply lookup_lt_is_Some in H. cbn. by apply list_lookup_insert_eq.
Qed.

Lemma lookup_is_Some self a w : heap w !! self = Some a -> is_Some (heap w !! self).
Proof. eauto. Qed.

Lemma put_obj_put_obj self a b w : put_obj self a (put_obj self b w) = put_obj self a w.
Proof. unfold put_obj, set_heap. cbn. by rewrite list_insert_insert_eq. Qed.

Lemma is_Some_put_obj self a w :
  is_Some (heap w !! self) -> is_Some (heap (put_obj self a w) !! self).
Proof. intros H. rewrite lookup_put_obj; eauto. Qed.

Create HintDb store.
#[local] Hint Resolve lookup_put_obj lookup_is_Some is_Some_put_obj : store.

Ltac store_simpl :=
  cbn [heap active_request hsm_active hsm_ux_obj
       set_active_request set_hsm_active set_hsm_ux_obj] in *.

Ltac solve_lookup := store_simpl; solve [eauto with store].

(** Drop the imported names that the goal does not mention. *)
Ltac clear_params :=
  try clear HSMPolicy_load; try clear ujson_loads; try clear JSON;
  try clear tiny_text_end; try clear problem_file_line;
  try clear pretty_short_delay; try clear is_simulator;
  try clear POLICY_FNAME; try clear ABORT_KEY; try clear LOCAL_PIN_LENGTH.

Ltac obj_simpl :=
  cbn [policy new_file refused failed ux_done set_refused set_failed set_ux_done] in *.

Ltac ux_simpl :=
  cbn [busy_text percent last_percent digits phase test_restart
       set_busy_text set_percent set_last_percent set_digits set_phase
       set_test_restart hsm_ux_obj heap active_request hsm_active
       set_hsm_ux_obj set_hsm_active set_active_request show_stage_eqb] in *.

(** One step of symbolic execution. *)
Ltac wp_step :=
  lazymatch goal with
  | |- wp (bind _ _) _ _ _ => apply wp_bind
  | |- wp (try_except _ _) _ _ _ => apply wp_try
  | |- wp (ret _) _ _ _ => apply wp_ret
  | |- wp (raise _) _ _ _ => apply wp_raise
  | |- wp (emit _) _ _ _ => apply wp_emit
  | |- wp (modify _) _ _ _ => apply wp_modify
  | |- wp (gets _) _ _ _ => apply wp_gets
  | |- wp (local _ _) _ _ _ => apply wp_local
  | |- wp (call _ _) _ _ _ => apply wp_call
  | |- wp (ApproveHSMPolicy_new _ _) _ _ _ => apply wp_new
  | |- wp (ask _) _ _ _ => apply wp_ask
  | |- wp (answer _) _ _ _ => apply wp_answer
  | |- wp (modify_ux _) _ _ _ => apply wp_modify
  | |- wp (self_attr _) _ _ _ => apply wp_gets
  | |- wp (setattr _ _) _ _ _ =>
      first [ eapply wp_setattr; [solve_lookup|]
            | apply wp_setattr_any; [intros ? ?|intros ?] ]
  | |- wp (getattr _ _) _ _ _ =>
      first [ eapply wp_getattr; [solve_lookup|]
            | apply wp_getattr_any; [intros ? ?|intros ?] ]
  end; cbv beta iota; obj_simpl; ux_simpl;
  rewrite ?put_obj_put_obj, ?String.eqb_refl;
  cbn [negb andb orb fst snd].

(** Use a known answer, or split on an unknown one. *)
Ltac wp_case :=
  lazymatch goal with
  | H : ?x = _ |- match ?x with _ => _ end => rewrite H
  | H : ?x = _ |- wp (match ?x with _ => _ end) _ _ _ => rewrite H
  | |- match ?x with _ => _ end => destruct x eqn:?
  | |- wp (match ?x with _ => _ end) _ _ _ => destruct x eqn:?
  end; cbv beta iota; obj_simpl; ux_simpl; cbn [negb andb orb fst snd].

(** Rewrite with the answers that the hypotheses fix. *)
Ltac use_facts :=
  repeat match goal with
    | H : ?x = true |- context [?x] => rewrite H
    | H : ?x = false |- context [?x] => rewrite H
    | H : ?x = Returns _ |- context [?x] => rewrite H
    | H : ?x = Throws _ |- context [?x] => rewrite H
    | H : ?x = Some _ |- context [?x] => rewrite H
    | H : ?x = None |- context [?x] => rewrite H
    end;
  cbn [negb andb orb].

Ltac wp_go := clear_params; repeat first [ wp_step | progress use_facts | wp_case ].

Lemma count_events_app f t1 t2 :
  count_events f (t1 ++ t2) = count_events f t1 + count_events f t2.
Proof. unfold count_events. by rewrite List.filter_app, length_app. Qed.

Lemma count_events_cons f ev t :
  count_events f (ev :: t) = (if f ev then 1 else 0) + count_events f t.
Proof. unfold count_events. cbn [List.filter]. by destruct (f ev). Qed.

Ltac trace_simpl :=
  rewrite ?app_nil_r; cbn [app]; rewrite ?count_events_app, ?in_app_iff;
  cbn [count_events List.filter length is_activate is_random is_story In
       is_local_pin is_interact is_poll is_goto_top
       confirmation_tokens omap story_token String.append].

(** Turn boolean tests on numbers into (in)equalities. *)
Ltac nat_facts :=
  repeat match goal with
    | H : (_ =? _)%nat = true |- _ => apply Nat.eqb_eq in H
    | H : (_ =? _)%nat = false |- _ => apply Nat.eqb_neq in H
    | H : (_ <? _)%nat = true |- _ => apply Nat.ltb_lt in H
    | H : (_ <? _)%nat = false |- _ => apply Nat.ltb_ge in H
    end.

(** Turn boolean tests on strings into equations. *)
Ltac bool_facts :=
  repeat match goal with
    | H : negb _ = true |- _ => apply negb_true_iff in H
    | H : negb _ = false |- _ => apply negb_false_iff in H
    | H : (_ =? _)%string = true |- _ => apply String.eqb_eq in H; subst
    | H : (_ =? _)%string = false |- _ => apply String.eqb_neq in H
    end.

(** Close a goal about the final world and the events. *)
Ltac wp_done :=
  store_simpl; obj_simpl; trace_simpl;
  repeat match goal with
    | |- _ /\ _ => split
    | |- exists _, heap _ !! _ = Some _ /\ _ => eexists; split; [solve_lookup|]; obj_simpl
    end;
  trace_simpl;
  try first [ reflexivity | discriminate | congruence | lia | solve_lookup
            | solve [intuition auto] ].

Ltac unfold_approval :=
  unfold ApproveHSMPolicy_interact, interact_try_body, interact_except,
    UserAuthorizedAction_cleanup, HSMPolicy_activate, str_index.

(** ** The approval fails closed *)

(** The presentation steps touch nothing but the object itself, and never
    activate. *)
Lemma try_body_frame self a e w :
  heap w !! self = Some a ->
  wp (interact_try_body self) e w
     (fun _ w1 t1 =>
        exists a1, w1 = put_obj self a1 w /\ policy a1 = policy a /\
                   new_file a1 = new_file a /\ count_events is_activate t1 = 0).
Proof.
  intros Ha. unfold_approval.
  wp_go; eexists; (split; [reflexivity|]); wp_done.
Qed.

Lemma rejection_returns self a e w :
  heap w !! self = Some a ->
  first_gesture_rejects a e \/ first_story_interrupted a e ->
  wp (interact_try_body self) e w (fun r _ _ => r = Ret tt).
Proof.
  intros Ha [(text & ch & Hex & Hs & Hne) | (text & Hex & Hs)].
  - apply String.eqb_neq in Hne. unfold_approval. wp_go; wp_done.
  - unfold_approval. wp_go; wp_done.
Qed.

Lemma rejection_not_raises self a e w x :
  heap w !! self = Some a ->
  first_gesture_rejects a e \/ first_story_interrupted a e ->
  ~ presentation_raises self e w x.
Proof.
  intros Ha Hrej (w1 & t1 & Hrun).
  pose proof (rejection_returns self a e w Ha Hrej) as H.
  apply (wp_run _ _ _ _ _ _ _ Hrun) in H. discriminate.
Qed.

Lemma raise_is_recorded self a e w x :
  heap w !! self = Some a ->
  presentation_raises self e w x ->
  wp (ApproveHSMPolicy_interact self) e w
     (fun _ w' t =>
        terminal_refused self w' /\ count_events is_activate t = 0 /\
        hsm_active w' = hsm_active w /\
        exists a', heap w' !! self = Some a' /\ failed a' = Some "Exception" /\
                   In (EvPrintException x) t).
Proof.
  intros Ha (w1 & t1 & Hrun).
  pose proof (try_body_frame self a e w Ha) as Hframe.
  apply (wp_run _ _ _ _ _ _ _ Hrun) in Hframe.
  destruct Hframe as (a1 & -> & Hp & Hn & Hact).
  unfold ApproveHSMPolicy_interact.
  apply wp_bind, wp_try. apply (wp_run _ _ _ _ _ _ _ Hrun). cbv beta iota.
  unfold_approval. wp_go; unfold terminal_refused; wp_done.
Qed.

Lemma rejection_is_refusal self a e w :
  heap w !! self = Some a ->
  first_gesture_rejects a e \/ first_story_interrupted a e ->
  wp (ApproveHSMPolicy_interact self) e w
     (fun _ w' t =>
        terminal_refused self w' /\ count_events is_activate t = 0 /\
        hsm_active w' = hsm_active w).
Proof.
  intros Ha [(text & ch & Hex & Hs & Hne) | (text & Hex & Hs)].
  - apply String.eqb_neq in Hne. unfold_approval.
    wp_go; unfold terminal_refused; wp_done.
  - unfold_approval. wp_go; unfold terminal_refused; wp_done.
Qed.

(** C2: if the first gesture is a rejection, or the first story is
    interrupted, or any statement of the presentation raises, then the
    action ends with [ux_done] and [refused] set, [policy.activate] is not
    called and [main.hsm_active] is untouched; and whenever the presentation
    raised, the failure is recorded in [failed], printed, and turned into a
    refusal. *)
Theorem approval_fails_closed self a e w :
  heap w !! self = Some a ->
  first_gesture_rejects a e \/ first_story_interrupted a e \/
    (exists x, presentation_raises self e w x) ->
  wp (ApproveHSMPolicy_interact self) e w
     (fun _ w' t =>
        terminal_refused self w' /\ count_events is_activate t = 0 /\
        hsm_active w' = hsm_active w /\
        forall x, presentation_raises self e w x ->
          exists a', heap w' !! self = Some a' /\ failed a' = Some "Exception" /\
                     In (EvPrintException x) t).
Proof.
  intros Ha Hcase.
  assert (first_gesture_rejects a e \/ first_story_interrupted a e \/
          (exists x, presentation_raises self e w x)) as [Hrej | [Hint | [x Hx]]]
    by exact Hcase.
  - eapply wp_conseq; [apply (rejection_is_refusal self a e w Ha); auto|].
    cbv beta. intros _ w' t (? & ? & ?). repeat split; try assumption.
    intros x Hx. exfalso. eapply rejection_not_raises; eauto.
  - eapply wp_conseq; [apply (rejection_is_refusal self a e w Ha); auto|].
    cbv beta. intros _ w' t (? & ? & ?). repeat split; try assumption.
    intros x Hx. exfalso. eapply rejection_not_raises; eauto.
  - eapply wp_conseq; [apply (raise_is_recorded self a e w x Ha Hx)|].
    cbv beta. intros _ w' t (? & ? & ? & Hrec). repeat split; try assumption.
    intros x' (w1' & t1' & Hrun'). destruct Hx as (w1 & t1 & Hrun).
    rewrite Hrun in Hrun'. by injection Hrun' as -> _ _.
Qed.

(** ** The second confirmation *)

Lemma terminal_approved_at self w a :
  heap w !! self = Some a ->
  (terminal_approved self w <-> ux_done a = true /\ refused a = false).
Proof.
  intros Ha. unfold terminal_approved. split.
  - intros (a' & Ha' & ? & ?). rewrite Ha in Ha'. by injection Ha' as <-.
  - intros [? ?]. eauto.
Qed.

Lemma terminal_refused_at self w a :
  heap w !! self = Some a ->
  (terminal_refused self w <-> ux_done a = true /\ refused a = true).
Proof.
  intros Ha. unfold terminal_refused. split.
  - intros (a' & Ha' & ? & ?). rewrite Ha in Ha'. by injection Ha' as <-.
  - intros [? ?]. eauto.
Qed.

(** C1: for a new policy whose first gesture is acceptance, one number is
    drawn, it selects one token of the confirmation alphabet, and the
    second story asks for that token alone; the action ends approved
    exactly when the gesture that ends the second story is that token, and
    then [policy.activate] is called once; with any other answer of the
    story, an exception included, it ends refused, without a call of
    [policy.activate] and with [main.hsm_active] untouched. *)
Theorem second_confirmation_exact_token self a e w text r :
  heap w !! self = Some a -> new_file a = true ->
  explain (policy a) = Returns text -> ae_story1 e = Returns "y" ->
  ae_random e = Returns r -> r < 5 ->
  exists c,
    String.get r confirm_alphabet = Some c /\
    wp (ApproveHSMPolicy_interact self) e w
       (fun _ w' t =>
          count_events is_random t = 1 /\
          confirmation_tokens t = [String c EmptyString] /\
          (terminal_approved self w' <-> ae_story2 e = Returns (String c EmptyString)) /\
          (terminal_refused self w' <-> ae_story2 e <> Returns (String c EmptyString)) /\
          (ae_story2 e = Returns (String c EmptyString) ->
             count_events is_activate t = 1 /\ In (EvActivate (policy a) true) t) /\
          (ae_story2 e <> Returns (String c EmptyString) ->
             count_events is_activate t = 0 /\ hsm_active w' = hsm_active w)).
Proof.
  intros Ha Hnew Hex Hs1 Hr Hlt.
  assert (exists c, String.get r confirm_alphabet = Some c) as [c Hc].
  { do 5 (destruct r as [|r]; [cbn; eauto|]). lia. }
  exists c. split; [exact Hc|].
  unfold_approval.
  wp_go; bool_facts;
    (erewrite terminal_approved_at by solve_lookup);
    (erewrite terminal_refused_at by solve_lookup);
    obj_simpl; store_simpl; trace_simpl;
    intuition (try congruence; auto).
Qed.

(** ** The confirmation alphabet *)

Lemma alphabet_get r c :
  String.get r confirm_alphabet = Some c -> In (String c EmptyString) token_alphabet.
Proof.
  clear_params.
  do 5 (destruct r as [|r]; [cbn; intros [= <-]; cbn; tauto|]).
  cbn. discriminate.
Qed.

Lemma alphabet_excludes tok :
  In tok token_alphabet -> ~ In tok ["0"; "5"; "7"; "8"; "9"].
Proof.
  cbn. intros H H'.
  repeat match goal with H : _ \/ _ |- _ => destruct H end;
    try contradiction; subst; discriminate.
Qed.

(** C10: every token that a story of the action asks for is one of the
    characters 1, 2, 3, 4 and 6, so never one of 0, 5, 7, 8 and 9; and each
    of the five is asked for when the matching number is drawn. *)
Theorem confirmation_token_alphabet self a e w :
  heap w !! self = Some a ->
  wp (ApproveHSMPolicy_interact self) e w
     (fun _ _ t =>
        forall tok, In tok (confirmation_tokens t) ->
          In tok token_alphabet /\ ~ In tok ["0"; "5"; "7"; "8"; "9"]) /\
  (forall tok, In tok token_alphabet ->
     exists r,
       wp (ApproveHSMPolicy_interact 0)
          (demo_env (Returns "y") r (Returns tok)) (demo_world true)
          (fun _ _ t => confirmation_tokens t = [tok])).
Proof.
  intros Ha. split.
  - unfold_approval.
    wp_go; intros tok Htok; simpl in Htok;
      repeat match goal with H : _ \/ _ |- _ => destruct H end;
      try contradiction; subst;
      (split; [|apply alphabet_excludes]); eapply alphabet_get; eassumption.
  - intros tok Htok. cbn in Htok.
    destruct Htok as [<- | [<- | [<- | [<- | [<- | []]]]]];
      [exists 0 | exists 1 | exists 2 | exists 3 | exists 4]; reflexivity.
Qed.


(** ** The loader *)

Ltac unfold_loader :=
  unfold start_hsm_approval, UserAuthorizedAction_cleanup.

Lemma lookup_new_object (h : list ApproveHSMPolicy) obj :
  (h ++ [obj]) !! length h = Some obj.
Proof. by apply list_lookup_middle. Qed.

(** The three parts of the statement at the end of one path through the
    loader. *)
Ltac loader_no_policy :=
  split;
  [ intros Heq; first [ discriminate Heq | injection Heq as Heq; discriminate Heq
                      | split; [congruence | eauto] ]
  | intros [? [? Hthrows]]; first [ congruence | reflexivity ] ].

Ltac clash :=
  repeat match goal with
    | H : Returns _ = Throws _ |- _ => discriminate H
    | H : Throws _ = Returns _ |- _ => discriminate H
    | H : Returns _ = Returns _ |- _ => injection H as H; subst
    | H : ?f = Returns _, H' : ?f = Throws _ |- _ => rewrite H in H'
    | H : ?f = Returns _, H' : ?f = Returns _ |- _ => rewrite H in H'
    end.

Ltac loader_malformed :=
  intros json Hread Hmal;
  unfold read_text, malformed in Hread, Hmal;
  destruct Hread as [[Hlen Hread] | [Hlen Hread]]; try congruence;
  destruct Hmal as [[x Hx] | (js & x & Hjs & Hx)];
  clash; try congruence;
  first
    [ discriminate
    | (split; [reflexivity|]); (split; [reflexivity|]); (split; [reflexivity|]);
      eexists; cbn [In]; eauto 8 ].

Ltac loader_success :=
  intros ar Har;
  first
    [ discriminate Har
    | injection Har as <-;
      eexists; (split; [apply lookup_new_object|]);
      cbn [new_file In]; intuition (try congruence; try discriminate) ].

(** C6: the loader raises the [ValueError] "No existing policy" exactly
    when no transfer length is given and the policy file cannot be read;
    for a text that [ujson.loads] or [HSMPolicy.load] rejects it creates no
    action, leaves the slot of the active request empty, puts nothing on
    the screen stack, and reports "HSM Policy invalid: ...", by raising it
    in USB mode and by a story otherwise; and an action that it returns is
    the active request and has [new_file] set exactly when the text came
    from the transfer buffer, not from the policy file. *)
Theorem loader_outcomes sf_len usb_mode startup_mode e w :
  wp (start_hsm_approval sf_len usb_mode startup_mode) e w
     (fun r w' t =>
        (r = Raise (ValueError "No existing policy") <->
           sf_len = 0%Z /\ exists x, le_file e = Throws x) /\
        (forall json, read_text sf_len e json -> malformed json ->
           heap w' = heap w /\ active_request w' = None /\
           count_events is_ux_insert t = 0 /\
           exists exc,
             if usb_mode then r = Raise (ValueError (policy_invalid exc))
             else In (EvStory ("Cannot start HSM." +:+ LF +:+ LF +:+ policy_invalid exc)
                              None None false) t /\
                  (r = Ret None \/ exists x, r = Raise (External x))) /\
        (forall ar, r = Ret (Some ar) ->
           exists obj,
             heap w' !! ar = Some obj /\ active_request w' = Some ar /\
             (new_file obj = true <-> sf_len <> 0%Z) /\
             (new_file obj = true <-> In (EvReadTransfer sf_len) t) /\
             (new_file obj = false <-> In (EvReadFile POLICY_FNAME) t))).
Proof.
  unfold_loader.
  destruct (Z.eqb_spec sf_len 0) as [Hz | Hz].
  - rewrite Hz. wp_go; store_simpl; trace_simpl;
      cbn [heap set_heap is_ux_insert length];
      (split; [loader_no_policy | split; [loader_malformed | loader_success]]).
  - wp_go; store_simpl; trace_simpl;
      cbn [heap set_heap is_ux_insert length];
      (split; [loader_no_policy | split; [loader_malformed | loader_success]]).
Qed.

(** ** The lockdown screen: one call of [show] *)

Lemma cylon_in_range n : is_Some (cylon !! (n mod length cylon)).
Proof.
  apply lookup_lt_is_Some. apply Nat.mod_upper_bound.
  assert (length cylon = 53) as -> by reflexivity. lia.
Qed.

Lemma show_spec fault w :
  wp show fault w
     (fun r w' t =>
        heap w' = heap w /\ active_request w' = active_request w /\
        hsm_active w' = hsm_active w /\
        digits (hsm_ux_obj w') = digits (hsm_ux_obj w) /\
        test_restart (hsm_ux_obj w') = test_restart (hsm_ux_obj w) /\
        Forall (fun ev => is_draw ev = true) t /\
        (r = Ret tt ->
           phase (hsm_ux_obj w') = (phase (hsm_ux_obj w) + 1) mod length cylon) /\
        (fault = None -> is_Some (hsm_active w) -> r = Ret tt)).
Proof.
  destruct (cylon_in_range (phase (hsm_ux_obj w) + 1)) as [x Hx].
  unfold show, heartbeat_display, draw_stat, draw_busy, list_index, dis.
  destruct fault as [[]|]; wp_go;
    rewrite ?app_nil_r; cbn [app];
    repeat match goal with
      | |- _ /\ _ => split
      | |- Forall _ _ => repeat constructor
      | |- _ -> _ => intros ?
      | H : is_Some None |- _ => destruct H as [? H]; discriminate H
      end;
    try first [ reflexivity | discriminate | congruence ].
Qed.


(** ** What a step of the pending action leaves alone *)

Ltac frame_leaf :=
  rewrite ?app_nil_r; cbn [app]; store_simpl; ux_simpl;
  repeat match goal with
    | |- _ /\ _ => split
    | |- Forall _ _ => repeat constructor
    | |- _ -> _ => intros ?
    | H : is_Some None |- _ => destruct H as [? H]; discriminate H
    end;
  try first [ reflexivity | discriminate | congruence | assumption | solve [eauto] ].

Lemma approval_frame self e w :
  wp (ApproveHSMPolicy_interact self) e w
     (fun _ w' t =>
        hsm_ux_obj w' = hsm_ux_obj w /\
        (is_Some (hsm_active w) -> is_Some (hsm_active w')) /\
        Forall (fun ev => is_loop_event ev = false) t).
Proof.
  unfold_approval. wp_go; frame_leaf.
Qed.

(** ** The lockdown screen: the polled key *)

Lemma string_length_append (s1 s2 : string) :
  String.length (s1 +:+ s2) = String.length s1 + String.length s2.
Proof.
  induction s1 as [|c s1 IH]; [reflexivity|].
  change (S (String.length (s1 +:+ s2)) = S (String.length s1 + String.length s2)).
  by rewrite IH.
Qed.

Lemma handle_key_spec ch e w :
  wp (handle_key ch) e w
     (fun r w' t =>
        heap w' = heap w /\ active_request w' = active_request w /\
        hsm_active w' = hsm_active w /\
        phase (hsm_ux_obj w') = phase (hsm_ux_obj w) /\
        test_restart (hsm_ux_obj w') = test_restart (hsm_ux_obj w) /\
        Forall (fun ev => is_local_pin ev = true) t /\
        (String.length (digits (hsm_ux_obj w)) <= LOCAL_PIN_LENGTH ->
         String.length (digits (hsm_ux_obj w')) <= LOCAL_PIN_LENGTH) /\
        (forall x, r = Raise x ->
           (x = AttributeError /\ hsm_active w = None) \/
           (exists y, te_pin e = Throws y /\ x = External y))).
Proof.
  unfold handle_key. wp_go; frame_leaf.
  all: try (cbn [String.length]; lia).
  all: try match goal with
         | H : Raise _ = Raise _ |- _ => injection H as <-; eauto
         end.
  rewrite string_length_append. cbn [String.length].
  match goal with H : (_ <? _)%nat = true |- _ => apply Nat.ltb_lt in H end. lia.
Qed.

(** ** The lockdown screen: one iteration *)

(** Use the specification of a procedure that is called. *)
Ltac wp_spec :=
  lazymatch goal with
  | |- wp show _ _ _ =>
      eapply wp_conseq; [apply show_spec | cbv beta; intros ? ? ? ?]
  | |- wp (handle_key _) _ _ _ =>
      eapply wp_conseq; [apply handle_key_spec | cbv beta; intros ? ? ? ?]
  | |- wp (ApproveHSMPolicy_interact _) _ _ _ =>
      eapply wp_conseq; [apply approval_frame | cbv beta; intros ? ? ? ?]
  end;
  repeat match goal with H : _ /\ _ |- _ => destruct H as [? ?] end.

Ltac wp_run_all :=
  clear_params; repeat first [ wp_step | progress use_facts | wp_spec | wp_case ].

Lemma count_events_none (g f : event -> bool) t :
  (forall ev, g ev = true -> f ev = false) ->
  Forall (fun ev => g ev = true) t -> count_events f t = 0.
Proof.
  intros Hgf. unfold count_events. induction 1 as [|ev t Hev _ IH]; [reflexivity|].
  cbn [List.filter]. by rewrite (Hgf ev Hev).
Qed.

Lemma count_draws f t :
  (forall d, f (EvDraw d) = false) ->
  Forall (fun ev => is_draw ev = true) t -> count_events f t = 0.
Proof.
  intros Hf. apply count_events_none. intros [] Hev; try discriminate Hev. apply Hf.
Qed.

Lemma count_pins f t :
  (forall c, f (EvLocalPin c) = false) ->
  Forall (fun ev => is_local_pin ev = true) t -> count_events f t = 0.
Proof.
  intros Hf. apply count_events_none. intros [] Hev; try discriminate Hev. apply Hf.
Qed.

Lemma count_approval f t :
  (forall ev, f ev = true -> is_loop_event ev = true) ->
  Forall (fun ev => is_loop_event ev = false) t -> count_events f t = 0.
Proof.
  intros Hf. unfold count_events. induction 1 as [|ev t Hev _ IH]; [reflexivity|].
  cbn [List.filter]. destruct (f ev) eqn:Hfev; [|exact IH].
  apply Hf in Hfev. congruence.
Qed.

(** Count the events of a trace made of parts with known content. *)
Ltac count_solve :=
  rewrite ?app_nil_r; cbn [app];
  repeat first [ rewrite count_events_app | rewrite count_events_cons ];
  repeat match goal with
    | H : count_events ?f ?t = _ |- context [count_events ?f ?t] => rewrite H
    | H : Forall (fun ev => is_draw ev = true) ?t |- context [count_events ?f ?t] =>
        rewrite (count_draws f t) by (first [ exact H | reflexivity ])
    | H : Forall (fun ev => is_local_pin ev = true) ?t |- context [count_events ?f ?t] =>
        rewrite (count_pins f t) by (first [ exact H | reflexivity ])
    | H : Forall (fun ev => is_loop_event ev = false) ?t
      |- context [count_events ?f ?t] =>
        rewrite (count_approval f t) by (first [ exact H | by intros [] ])
    end;
  cbn [count_events List.filter length is_activate is_interact is_goto_top
       is_poll is_local_pin Nat.add].

(** Express the later worlds by the first one. *)
Ltac rew_everywhere H :=
  match type of H with
  | ?lhs = _ =>
      repeat match goal with
        | |- context [lhs] => rewrite H
        | H' : context [lhs] |- _ =>
            tryif constr_eq H H' then fail else rewrite H in H'
        end
  end.

Ltac world_eqs :=
  repeat match goal with
    | H : heap ?w' = _ |- _ => is_var w'; progress rew_everywhere H
    | H : active_request ?w' = _ |- _ => is_var w'; progress rew_everywhere H
    | H : hsm_active ?w' = _ |- _ => is_var w'; progress rew_everywhere H
    | H : hsm_ux_obj ?w' = _ |- _ => is_var w'; progress rew_everywhere H
    | H : phase (hsm_ux_obj ?w') = _ |- _ => is_var w'; progress rew_everywhere H
    | H : test_restart (hsm_ux_obj ?w') = _ |- _ => is_var w'; progress rew_everywhere H
    | H : digits (hsm_ux_obj ?w') = _ |- _ => is_var w'; progress rew_everywhere H
    | _ => progress ux_simpl
    end.

Ltac loop_leaf :=
  unfold idle in *; repeat match goal with u : unit |- _ => destruct u end;
  repeat match goal with |- _ /\ _ => split | |- _ -> _ => intros ? end;
  world_eqs;
  try count_solve;
  repeat match goal with
    | H : ?x = _, H' : context [match ?x with _ => _ end] |- _ => rewrite H in H'
    | H : ?x = _ |- context [match ?x with _ => _ end] => rewrite H
    | H : exists _, _ |- _ => destruct H as [? H]
    | H : _ /\ _ |- _ => destruct H as [? ?]
    | H : ?x = Some _, H' : ?x = Some _ |- _ => rewrite H in H'; injection H' as ->
    end;
  try first [ reflexivity | discriminate | assumption | congruence | lia
            | solve [eauto] ];
  bool_facts; try congruence.

Lemma loop_body_frame e w :
  wp loop_body e w
     (fun r w' t =>
        (is_Some (hsm_active w) -> is_Some (hsm_active w')) /\
        (test_restart (hsm_ux_obj w') = true ->
           test_restart (hsm_ux_obj w) = true \/ te_restart e = true) /\
        (String.length (digits (hsm_ux_obj w)) <= LOCAL_PIN_LENGTH ->
           String.length (digits (hsm_ux_obj w')) <= LOCAL_PIN_LENGTH) /\
        (r = Ret tt ->
           phase (hsm_ux_obj w') = (phase (hsm_ux_obj w) + 1) mod length cylon) /\
        count_events is_goto_top t = 0 /\
        (idle w ->
           idle w' /\ count_events is_activate t = 0 /\
           count_events is_interact t = 0)).
Proof.
  unfold loop_body, poll_input, service_request. wp_run_all; loop_leaf.
Qed.

(** ** The lockdown screen: the loop *)

Lemma lockdown_loop_frame envs : forall w,
  wp (lockdown_loop envs) tt w
     (fun r w' t =>
        (is_Some (hsm_active w) -> is_Some (hsm_active w')) /\
        (r = Ret LoopLeft -> test_restart (hsm_ux_obj w') = true) /\
        (test_restart (hsm_ux_obj w') = true ->
           test_restart (hsm_ux_obj w) = true \/
           exists e, In e envs /\ te_restart e = true) /\
        (String.length (digits (hsm_ux_obj w)) <= LOCAL_PIN_LENGTH ->
           String.length (digits (hsm_ux_obj w')) <= LOCAL_PIN_LENGTH) /\
        count_events is_goto_top t = 0 /\
        (idle w ->
           idle w' /\ count_events is_activate t = 0 /\
           count_events is_interact t = 0)).
Proof.
  induction envs as [|e rest IH]; intros w; cbn [lockdown_loop].
  - wp_go; cbn [In]; repeat split; try tauto; try congruence; intros; try discriminate.
  - wp_step. wp_step. wp_case.
    + wp_go. cbn [In]. repeat split; try tauto; try congruence; intros; try discriminate.
    + eapply wp_bind_spec; [apply wp_local, loop_body_frame|].
      cbv beta. intros r w1 t1 (Hact & Hrst & Hdig & _ & Hgoto & Hidle).
      destruct r as [[]|x].
      * eapply wp_conseq; [apply IH|]. cbv beta.
        intros r2 w2 t2 (Hact2 & Hleft2 & Hrst2 & Hdig2 & Hgoto2 & Hidle2).
        cbn [app]. rewrite !count_events_app. cbn [In].
        split; [auto|]. split; [auto|].
        split.
        { intros H. destruct (Hrst2 H) as [H1 | (e' & ? & ?)]; [|eauto].
          destruct (Hrst H1); eauto. }
        split; [auto|]. split; [lia|].
        intros Hi. destruct (Hidle Hi) as (Hi1 & ? & ?).
        destruct (Hidle2 Hi1) as (? & ? & ?). repeat split; [assumption|lia|lia].
      * cbn [app In]. rewrite ?app_nil_r.
        split; [auto|]. split; [discriminate|].
        split.
        { intros H. destruct (Hrst H); eauto. }
        split; [auto|]. split; [assumption|]. exact Hidle.
Qed.

(** ** The lockdown screen: [interact] *)

Lemma draw_background_spec e w :
  wp draw_background e w
     (fun r w' t =>
        r = Ret tt /\ w' = w /\
        forall f, (forall d, f (EvDraw d) = false) ->
                  (forall s, f (EvPrint s) = false) -> count_events f t = 0).
Proof.
  assert (forall x lab xoff w0,
            wp (background_label x lab xoff) e w0
               (fun r w' t =>
                  (exists v, r = Ret v) /\ w' = w0 /\
                  forall f, (forall d, f (EvDraw d) = false) ->
                            (forall s, f (EvPrint s) = false) ->
                            count_events f t = 0)) as Hlabel.
  { intros x lab xoff w0. unfold background_label.
    destruct (lab =? "REFUSED")%string; [|destruct (xoff =? 0)%Z];
      repeat wp_step; (split; [eauto|split; [reflexivity|]]);
      intros f Hd Hp; cbn [app]; rewrite ?count_events_cons, ?Hd, ?Hp; reflexivity. }
  unfold draw_background.
  do 8 wp_step.
  eapply wp_bind_spec; [apply Hlabel|]. cbv beta. intros r1 w1 t1 ([x1 ->] & -> & H1).
  eapply wp_bind_spec; [apply Hlabel|]. cbv beta. intros r2 w2 t2 ([x2 ->] & -> & H2).
  eapply wp_bind_spec; [apply Hlabel|]. cbv beta. intros r3 w3 t3 ([x3 ->] & -> & H3).
  repeat wp_step. split; [reflexivity|]. split; [reflexivity|].
  intros f Hd Hp. rewrite ?app_nil_r. cbn [app].
  repeat first [ rewrite count_events_app | rewrite count_events_cons ].
  rewrite ?Hd, ?Hp, (H1 f Hd Hp), (H2 f Hd Hp), (H3 f Hd Hp). reflexivity.
Qed.

Ltac interact_leaf :=
  first [ lia | assumption | reflexivity | discriminate
        | solve [intros; discriminate] | solve [auto]
        | solve [exfalso; lia] | solve [exfalso; congruence] ].

Lemma interact_frame envs w :
  wp (hsmUxInteraction_interact envs) tt w
     (fun r w' t =>
        String.length (digits (hsm_ux_obj w')) <= LOCAL_PIN_LENGTH /\
        count_events is_goto_top t <= 1 /\
        (count_events is_goto_top t = 1 ->
           is_simulator = true /\ r = Ret LoopLeft /\
           exists e, In e envs /\ te_restart e = true) /\
        (r = Ret LoopLeft -> count_events is_goto_top t = 1) /\
        (count_events is_goto_top t = 0 ->
           is_Some (hsm_active w) -> is_Some (hsm_active w')) /\
        (idle w ->
           count_events is_activate t = 0 /\ count_events is_interact t = 0)).
Proof.
  unfold hsmUxInteraction_interact.
  wp_step. wp_step. eapply wp_bind_spec; [apply draw_background_spec|].
  cbv beta. intros r0 w0 t0 (-> & -> & Hbg0).
  pose proof (Hbg0 is_goto_top (fun _ => eq_refl) (fun _ => eq_refl)) as Hbg.
  pose proof (Hbg0 is_activate (fun _ => eq_refl) (fun _ => eq_refl)) as Hbga.
  pose proof (Hbg0 is_interact (fun _ => eq_refl) (fun _ => eq_refl)) as Hbgi.
  clear Hbg0.
  wp_step. wp_step. wp_step. wp_step.
  eapply wp_bind_spec; [apply lockdown_loop_frame|].
  cbv beta. ux_simpl. intros r w1 t1 (Hact & Hleft & Hrst & Hdig & Hgoto & Hidle).
  assert (idle w -> count_events is_activate t1 = 0 /\ count_events is_interact t1 = 0)
    as Hquiet by (intros Hi; apply Hidle; exact Hi).
  clear Hidle.
  assert (String.length (digits (hsm_ux_obj w1)) <= LOCAL_PIN_LENGTH) as Hd
    by (apply Hdig; cbn; lia).
  destruct r as [[]|x].
  - wp_go; store_simpl; ux_simpl.
    + destruct (Hrst (Hleft eq_refl)) as [Hf | He]; [discriminate Hf|].
      count_solve; repeat split;
        try match goal with Hi : idle _ |- _ => destruct (Hquiet Hi) end;
        count_solve; interact_leaf.
    + count_solve; repeat split;
        try match goal with Hi : idle _ |- _ => destruct (Hquiet Hi) end;
        count_solve; interact_leaf.
  - wp_go; store_simpl; ux_simpl.
    count_solve; repeat split;
        try match goal with Hi : idle _ |- _ => destruct (Hquiet Hi) end;
        count_solve; interact_leaf.
  - count_solve; repeat split;
        try match goal with Hi : idle _ |- _ => destruct (Hquiet Hi) end;
        count_solve; interact_leaf.
Qed.


(** ** The local digit buffer *)

(** C5: whatever the inputs, the outcomes of the calls and the previous
    state, the digit buffer holds at most [LOCAL_PIN_LENGTH] characters
    after any number of iterations of the lockdown loop; handling a key
    makes the buffer longer only when it was shorter than
    [LOCAL_PIN_LENGTH], and then by the first character of that key; the
    confirm key with a shorter buffer changes nothing and calls nothing;
    the confirm key with a buffer of exactly [LOCAL_PIN_LENGTH] characters
    calls [local_pin_entered] once, with the buffer, and when the call
    returns the buffer is empty; the cancel key empties the buffer; and
    [local_pin_entered] is called in no other case. *)
Theorem digit_buffer_bounded :
  (forall envs w,
     wp (hsmUxInteraction_interact envs) tt w
        (fun _ w' _ =>
           String.length (digits (hsm_ux_obj w')) <= LOCAL_PIN_LENGTH)) /\
  (forall ch e w,
     wp (handle_key ch) e w
        (fun r w' t =>
           let d := digits (hsm_ux_obj w) in
           let d' := digits (hsm_ux_obj w') in
           (String.length d < String.length d' ->
              String.length d < LOCAL_PIN_LENGTH /\
              exists c rest, ch = String c rest /\ d' = d +:+ String c EmptyString) /\
           (ch = "y" -> String.length d < LOCAL_PIN_LENGTH ->
              r = Ret tt /\ w' = w /\ t = []) /\
           (ch = "y" -> String.length d = LOCAL_PIN_LENGTH ->
              is_Some (hsm_active w) ->
              t = [EvLocalPin d] /\
              (te_pin e = Returns tt -> r = Ret tt /\ d' = "")) /\
           (ch = "x" -> r = Ret tt /\ d' = "" /\ t = []) /\
           (count_events is_local_pin t <= 1) /\
           (count_events is_local_pin t = 1 ->
              ch = "y" /\ String.length d = LOCAL_PIN_LENGTH))).
Proof.
  clear_params.
  split.
  - intros envs w. eapply wp_conseq; [apply interact_frame|].
    cbv beta. tauto.
  - intros ch e w. unfold handle_key.
    wp_go; cbv zeta; ux_simpl; trace_simpl; bool_facts; nat_facts;
      repeat match goal with
        | |- _ /\ _ => split
        | |- _ -> _ => intros ?
        | H : is_Some None |- _ => destruct H as [? H]; discriminate H
        end;
      subst; rewrite ?string_length_append in *; cbn [String.length] in *;
      try first [ reflexivity | discriminate | congruence | lia | solve [eauto] ].
Qed.


(** ** The abort key and the way out of the lockdown *)

(** C4: provided the abort key is neither the cancel nor the confirm key,
    handling it changes no state and calls nothing; an iteration that polls
    it does what [show], [gc.collect] and the poll do and nothing else, so
    raises nothing of its own and steps no pending action; and a run of
    [interact] calls [goto_top_menu] at most once, and calls it, or
    returns, only on the simulator and only after another task has set
    [test_restart] during a sleep of the loop: otherwise the run is still
    in the loop or ended by an exception, and as long as [goto_top_menu]
    was not called [main.hsm_active] is still set. *)
Theorem lockdown_is_one_way :
  ABORT_KEY <> "x" -> ABORT_KEY <> "y" ->
  (forall e w,
     wp (handle_key ABORT_KEY) e w (fun r w' t => r = Ret tt /\ w' = w /\ t = [])) /\
  (forall e w, te_poll e = Returns ABORT_KEY ->
     wp loop_body e w
        (fun r w' t =>
           exists r0 w0 t0,
             show (te_draw_fault e) w = (r0, w0, t0) /\ w' = w0 /\
             match r0 with
             | Ret _ => r = Ret tt /\ t = t0 ++ [EvGcCollect; EvPoll]
             | Raise x => r = Raise x /\ t = t0
             end)) /\
  (forall envs w,
     wp (hsmUxInteraction_interact envs) tt w
        (fun r w' t =>
           count_events is_goto_top t <= 1 /\
           (count_events is_goto_top t = 1 \/ r = Ret LoopLeft ->
              is_simulator = true /\
              exists e, In e envs /\ te_restart e = true) /\
           (count_events is_goto_top t = 0 ->
              r <> Ret LoopLeft /\
              (is_Some (hsm_active w) -> is_Some (hsm_active w'))))).
Proof.
  intros Hx Hy. apply String.eqb_neq in Hx, Hy.
  assert (forall e w,
            wp (handle_key ABORT_KEY) e w
               (fun r w' t => r = Ret tt /\ w' = w /\ t = [])) as Hkey.
  { intros e w. unfold handle_key. rewrite Hx, Hy, String.eqb_refl.
    wp_go. repeat split. }
  split; [exact Hkey|]. split.
  - intros e w Hpoll. unfold loop_body.
    apply wp_bind, wp_local, wp_intro. intros r0 w0 t0 Hshow.
    destruct r0 as [[]|x].
    + unfold poll_input. wp_go.
      eapply wp_conseq; [apply Hkey|]. cbv beta. intros r w1 t1 (-> & -> & ->).
      wp_go. exists (Ret tt), w0, t0. rewrite ?app_nil_r. cbn [app]. auto.
    + exists (Raise x), w0, t0. auto.
  - intros envs w. eapply wp_conseq; [apply interact_frame|]. cbv beta.
    intros r w' t (_ & Hle & Hone & Hleft & Hzero & _).
    split; [exact Hle|]. split.
    + intros [H | H]; [|apply Hleft in H]; destruct (Hone H) as (? & ? & ?); auto.
    + intros H. split; [|auto]. intros Hr. apply Hleft in Hr. lia.
Qed.

(** ** Approval of a persisted policy *)

(** C7: for a policy read from the policy file, acceptance of the one
    story is enough: the action shows no second story, ends approved, calls
    [policy.activate(False)] once and then [the_ux.reset(hsm_ux_obj)]; and
    in the world it leaves, a run of the lockdown screen, whatever its
    length and inputs, steps no action and calls [policy.activate] no
    more, be the slot of the active request empty, as the action leaves
    it, or pointing to the finished action again. *)
Theorem persisted_policy_single_gesture self a e w text :
  heap w !! self = Some a -> new_file a = false ->
  explain (policy a) = Returns text -> ae_story1 e = Returns "y" ->
  ae_activate e = Returns tt ->
  wp (ApproveHSMPolicy_interact self) e w
     (fun r w' t =>
        r = Ret tt /\ terminal_approved self w' /\
        t = [EvExplain (policy a);
             EvStory (text +:+ LF +:+ LF +:+ "Press OK to enable HSM mode.")
                     (Some title) None false;
             EvCleanup; EvActivate (policy a) false; EvUxReset] /\
        hsm_active w' = Some (policy a) /\
        forall envs slot, slot = None \/ slot = Some self ->
          wp (hsmUxInteraction_interact envs) tt (set_active_request slot w')
             (fun _ _ t' =>
                count_events is_activate t' = 0 /\
                count_events is_interact t' = 0)).
Proof.
  intros Ha Hnew Hex Hs1 Hact.
  unfold_approval. wp_go; unfold terminal_approved; wp_done.
  intros envs slot Hslot. eapply wp_conseq; [apply interact_frame|]. cbv beta.
  intros r w' t (_ & _ & _ & _ & _ & Hidle). apply Hidle.
  destruct Hslot as [-> | ->]; unfold idle; store_simpl; [exact I|].
  eexists. split; [solve_lookup|]. reflexivity.
Qed.

(** ** Polling and the pending action *)

Lemma polls_and_steps_app t1 t2 :
  polls_and_steps (t1 ++ t2) = polls_and_steps t1 ++ polls_and_steps t2.
Proof. apply List.filter_app. Qed.

Lemma polls_and_steps_none (g : event -> Prop) t :
  (forall ev, g ev -> is_poll ev || is_interact ev = false) ->
  Forall g t -> polls_and_steps t = [].
Proof.
  intros Hg. unfold polls_and_steps.
  induction 1 as [|ev t Hev _ IH]; [reflexivity|].
  cbn [List.filter]. by rewrite (Hg ev Hev).
Qed.

Lemma polls_and_steps_draws t :
  Forall (fun ev => is_draw ev = true) t -> polls_and_steps t = [].
Proof. apply polls_and_steps_none. by intros []. Qed.

Lemma polls_and_steps_pins t :
  Forall (fun ev => is_local_pin ev = true) t -> polls_and_steps t = [].
Proof. apply polls_and_steps_none. by intros []. Qed.

Lemma polls_and_steps_approval t :
  Forall (fun ev => is_loop_event ev = false) t -> polls_and_steps t = [].
Proof. apply polls_and_steps_none. by intros []. Qed.

Ltac steps_solve :=
  rewrite ?app_nil_r; rewrite ?polls_and_steps_app;
  repeat match goal with
    | H : Forall (fun ev => is_draw ev = true) ?t |- context [polls_and_steps ?t] =>
        rewrite (polls_and_steps_draws t H)
    | H : Forall (fun ev => is_local_pin ev = true) ?t |- context [polls_and_steps ?t] =>
        rewrite (polls_and_steps_pins t H)
    | H : Forall (fun ev => is_loop_event ev = false) ?t |- context [polls_and_steps ?t] =>
        rewrite (polls_and_steps_approval t H)
    end;
  cbn [polls_and_steps List.filter is_poll is_interact orb app].

(** C3, as the code has it: when [show] succeeds and an action is pending
    and not done, an iteration whose poll finds the queue empty, and whose
    sleep returns, polls once and then steps the action once; an iteration
    whose poll delivers a key, or fails in another way, polls once, handles
    what it got, steps no action and goes on to the next iteration. *)
Theorem pending_step_follows_empty_poll e w p r a :
  hsm_active w = Some p -> te_draw_fault e = None ->
  active_request w = Some r -> heap w !! r = Some a -> ux_done a = false ->
  wp loop_body e w
     (fun res _ t =>
        (te_poll e = Throws QueueEmpty -> te_sleep e = Returns tt ->
           polls_and_steps t = [EvPoll; EvInteract r]) /\
        (forall ch, te_poll e = Returns ch -> te_pin e <> Throws QueueEmpty ->
           res = Ret tt /\ polls_and_steps t = [EvPoll]) /\
        (forall x, te_poll e = Throws x -> x <> QueueEmpty ->
           res = Ret tt /\ polls_and_steps t = [EvPoll])).
Proof.
  intros Hact Hfault Hreq Ha Hdone.
  unfold loop_body, poll_input, service_request. wp_run_all.
  all: repeat match goal with u : unit |- _ => destruct u end.
  all: repeat match goal with |- _ /\ _ => split | |- _ -> _ => intros ? | |- forall _, _ => intros ? end.
  all: world_eqs; try steps_solve.
  all: try first [reflexivity | discriminate | congruence ].
  all: try match goal with
         | H : forall x, Raise ?x0 = Raise x -> _ |- _ =>
             destruct (H _ eq_refl) as [[? ?] | (? & ? & ?)]; [discriminate|]
         end.
  all: try congruence.
  all: try match goal with
         | H : None = None -> is_Some _ -> Raise _ = Ret tt |- _ =>
             specialize (H eq_refl ltac:(eauto)); discriminate H
         end.
  all: try match goal with
         | H : ?l = Some ?a1, H' : ?l = Some ?a2 |- _ =>
             rewrite H in H'; injection H' as <-
         end.
  all: bool_facts; try congruence.
Qed.


(** ** Failures inside the loop *)

(** A drawing primitive that raises in a stage of [show] in which
    something is drawn; the field of the digits is drawn only when there
    are digits. *)
Lemma show_stage_fault s w p :
  hsm_active w = Some p ->
  (s = DigitsStage -> digits (hsm_ux_obj w) <> "") ->
  wp show (Some s) w
     (fun r w' _ => r = Raise (External (Foreign "display")) /\ hsm_active w' = Some p).
Proof.
  intros Hact Hdig.
  destruct (cylon_in_range (phase (hsm_ux_obj w) + 1)) as [x Hx].
  unfold show, heartbeat_display, draw_stat, draw_busy, list_index, dis.
  destruct s.
  - wp_go; store_simpl; split; first [reflexivity | assumption].
  - wp_go; store_simpl; split; first [reflexivity | assumption].
  - specialize (Hdig eq_refl). apply String.eqb_neq in Hdig.
    wp_go; store_simpl; split; first [reflexivity | assumption].
  - wp_go; store_simpl; split; first [reflexivity | assumption].
Qed.

(** C8, as the code has it: no iteration of the loop clears
    [main.hsm_active], whatever fails in it; when [show] succeeds, a
    failure of the poll other than the empty queue is caught and printed,
    and a failure while the polled key is handled, [local_pin_entered]
    included, is caught: the iteration ends normally, and if it does not,
    then [local_pin_entered] raised [QueueEmpty], which the loop takes for
    an empty queue, and the exception is one of the sleep or of the step
    of a pending action that followed; an [AbortInteraction] that the step
    of the pending action raises is swallowed; but an exception of a
    drawing primitive in [show], be it in the statistics, the heartbeat,
    the field of the digits or the busy display with its [dis.show()], is
    not caught: it ends the iteration before the poll, and the loop, with
    [main.hsm_active] still set. *)
Theorem poll_failures_are_contained :
  (forall e w,
     wp loop_body e w
        (fun _ w' _ => is_Some (hsm_active w) -> is_Some (hsm_active w'))) /\
  (forall e w p, hsm_active w = Some p -> te_draw_fault e = None ->
     wp loop_body e w
        (fun res _ t =>
           (forall ch, te_poll e = Returns ch ->
              (te_pin e <> Throws QueueEmpty -> res = Ret tt) /\
              (forall x, res = Raise x ->
                 te_pin e = Throws QueueEmpty /\
                 ((exists y, te_sleep e = Throws y /\ x = External y) \/
                  ~ idle w))) /\
           (forall x, te_poll e = Throws x -> x <> QueueEmpty ->
              res = Ret tt /\ In (EvPrintException (External x)) t))) /\
  (forall e w r a,
     active_request w = Some r -> heap w !! r = Some a -> ux_done a = false ->
     (exists w1 t1,
        ApproveHSMPolicy_interact r (te_request e) w
        = (Raise (External AbortInteraction), w1, t1)) ->
     wp service_request e w (fun res _ _ => res = Ret tt)) /\
  (forall e rest w p s,
     hsm_active w = Some p -> te_draw_fault e = Some s ->
     (s = DigitsStage -> digits (hsm_ux_obj w) <> "") ->
     test_restart (hsm_ux_obj w) = false ->
     wp (lockdown_loop (e :: rest)) tt w
        (fun res w' t =>
           res = Raise (External (Foreign "display")) /\
           hsm_active w' = Some p /\ count_events is_poll t = 0)).
Proof.
  clear_params.
  split; [|split; [|split]].
  - intros e w. eapply wp_conseq; [apply loop_body_frame|]. cbv beta. tauto.
  - intros e w p Hact Hfault.
    unfold loop_body, poll_input, service_request. wp_run_all.
    all: repeat match goal with u : unit |- _ => destruct u end.
    all: repeat match goal with
           | |- _ /\ _ => split | |- _ -> _ => intros ? | |- forall _, _ => intros ?
           end.
    all: world_eqs.
    all: try first [reflexivity | discriminate | congruence ].
    all: try match goal with
           | H : forall x, Raise ?x0 = Raise x -> _ |- _ =>
               destruct (H _ eq_refl) as [[? ?] | (? & ? & ?)]; [discriminate|]
           end.
    all: try congruence.
    all: try match goal with
           | H : None = None -> is_Some _ -> Raise _ = Ret tt |- _ =>
               specialize (H eq_refl ltac:(eauto)); discriminate H
           end.
    all: rewrite ?app_nil_r; cbn [app]; rewrite ?in_app_iff; cbn [In].
    all: try match goal with
           | H : Throws _ = Throws _ |- _ => injection H as <-
           end.
    all: try solve [intuition auto].
    all: try (left; eexists; split; [reflexivity|]; congruence).
    all: right; unfold idle;
      repeat match goal with
        | H : active_request ?w0 = _ |- context [active_request ?w0] => rewrite H
        end;
      intros (a' & Ha' & Hd'); try congruence;
      match goal with
      | H : heap _ !! _ = Some _ |- _ => rewrite H in Ha'; injection Ha' as <-
      end;
      match goal with
      | H : negb (ux_done _) = true |- _ => rewrite Hd' in H; discriminate H
      end.
  - intros e w r a Hreq Ha Hdone (w1 & t1 & Hrun).
    unfold service_request. wp_go.
    apply (wp_run _ _ _ _ _ _ _ Hrun). wp_go. reflexivity.
  - intros e rest w p s Hact Hfault Hdig Hrst. cbn [lockdown_loop].
    unfold loop_body. wp_go.
    eapply wp_conseq;
      [apply wp_and; [apply show_spec | apply (show_stage_fault s w p Hact Hdig)]|].
    cbv beta.
    intros r w' t [(_ & _ & _ & _ & _ & Hdraw & _) [-> Hact']].
    split; [reflexivity|]. split; [exact Hact'|].
    rewrite ?app_nil_r. cbn [app].
    exact (count_draws is_poll t (fun _ => eq_refl) Hdraw).
Qed.


(** ** The heartbeat is cosmetic *)

Lemma without_heartbeat_app t1 t2 :
  without_heartbeat (t1 ++ t2) = without_heartbeat t1 ++ without_heartbeat t2.
Proof. apply List.filter_app. Qed.

Lemma with_phase_twice n m w : with_phase n (with_phase m w) = with_phase n w.
Proof. reflexivity. Qed.

Section PhaseBlind.
Context {E A : Type}.

(** A computation that commutes with a change of the heartbeat position. *)
Lemma blind_commutes (m : M E A) :
  (forall e w n,
     m e (with_phase n w) = ((m e w).1.1, with_phase n (m e w).1.2, (m e w).2)) ->
  phase_blind m.
Proof. intros H e w n. exists n, (m e w).2. split; [apply H | reflexivity]. Qed.

Lemma blind_ret (a : A) : phase_blind (@ret E A a).
Proof. by apply blind_commutes. Qed.

Lemma blind_raise (x : exn) : phase_blind (@raise E A x).
Proof. by apply blind_commutes. Qed.

Lemma blind_call (ev : event) (f : E -> outcome A) : phase_blind (call ev f).
Proof. apply blind_commutes. intros e w n. unfold call. by destruct (f e). Qed.

Lemma blind_ask (f : E -> A) : phase_blind (ask f).
Proof. by apply blind_commutes. Qed.

Lemma blind_answer (o : outcome A) : phase_blind (@answer E A o).
Proof. apply blind_commutes. intros e w n. unfold answer. by destruct o. Qed.

Lemma blind_gets (f : World -> A) :
  (forall n w, f (with_phase n w) = f w) -> phase_blind (@gets E A f).
Proof. intros H. apply blind_commutes. intros e w n. unfold gets. cbn. by rewrite H. Qed.

Lemma blind_getattr (self : ref) (attr : ApproveHSMPolicy -> A) :
  phase_blind (@getattr E A self attr).
Proof.
  apply blind_commutes. intros e w n. unfold getattr.
  change (heap (with_phase n w)) with (heap w). by destruct (heap w !! self).
Qed.

Lemma blind_bind {B} (m : M E B) (k : B -> M E A) :
  phase_blind m -> (forall b, phase_blind (k b)) -> phase_blind (bind m k).
Proof.
  intros Hm Hk e w n. destruct (Hm e w n) as (n1 & t1 & Hrun1 & Ht1).
  unfold bind. rewrite Hrun1. destruct (m e w) as [[[b|x] w1] t1o]; cbn in *.
  - destruct (Hk b e w1 n1) as (n2 & t2 & Hrun2 & Ht2). rewrite Hrun2.
    destruct (k b e w1) as [[r2 w2] t2o]; cbn in *.
    exists n2, (t1 ++ t2). split; [reflexivity|].
    by rewrite !without_heartbeat_app, Ht1, Ht2.
  - exists n1, t1. by split.
Qed.

Lemma blind_try (m : M E A) (h : exn -> M E A) :
  phase_blind m -> (forall x, phase_blind (h x)) -> phase_blind (try_except m h).
Proof.
  intros Hm Hh e w n. destruct (Hm e w n) as (n1 & t1 & Hrun1 & Ht1).
  unfold try_except. rewrite Hrun1. destruct (m e w) as [[[a|x] w1] t1o]; cbn in *.
  - exists n1, t1. by split.
  - destruct (Hh x e w1 n1) as (n2 & t2 & Hrun2 & Ht2). rewrite Hrun2.
    destruct (h x e w1) as [[r2 w2] t2o]; cbn in *.
    exists n2, (t1 ++ t2). split; [reflexivity|].
    by rewrite !without_heartbeat_app, Ht1, Ht2.
Qed.

Lemma blind_local {E'} (f : E -> E') (m : M E' A) :
  phase_blind m -> phase_blind (local f m).
Proof. intros Hm e w n. apply (Hm (f e) w n). Qed.
End PhaseBlind.

Lemma blind_emit {E} (ev : event) : phase_blind (@emit E ev).
Proof. by apply blind_commutes. Qed.

Lemma blind_modify {E} (f : World -> World) :
  (forall n w, f (with_phase n w) = with_phase n (f w)) -> phase_blind (@modify E f).
Proof. intros H. apply blind_commutes. intros e w n. unfold modify. cbn. by rewrite H. Qed.

Lemma blind_setattr {E} (self : ref) (f : ApproveHSMPolicy -> ApproveHSMPolicy) :
  phase_blind (@setattr E self f).
Proof.
  apply blind_commutes. intros e w n. unfold setattr.
  change (heap (with_phase n w)) with (heap w). by destruct (heap w !! self).
Qed.

Lemma blind_new {E} (p : HSMPolicy) (is_new : bool) :
  phase_blind (@ApproveHSMPolicy_new E p is_new).
Proof. by apply blind_commutes. Qed.

Ltac blind_step :=
  lazymatch goal with
  | |- phase_blind (bind _ _) => apply blind_bind; [|intros ?]
  | |- phase_blind (try_except _ _) => apply blind_try; [|intros ?]
  | |- phase_blind (local _ _) => apply blind_local
  | |- phase_blind (ret _) => apply blind_ret
  | |- phase_blind (raise _) => apply blind_raise
  | |- phase_blind (emit _) => apply blind_emit
  | |- phase_blind (call _ _) => apply blind_call
  | |- phase_blind (ask _) => apply blind_ask
  | |- phase_blind (answer _) => apply blind_answer
  | |- phase_blind (getattr _ _) => apply blind_getattr
  | |- phase_blind (setattr _ _) => apply blind_setattr
  | |- phase_blind (ApproveHSMPolicy_new _ _) => apply blind_new
  | |- phase_blind (gets _) => apply blind_gets; reflexivity
  | |- phase_blind (modify _) => apply blind_modify; reflexivity
  | |- phase_blind (if ?b then _ else _) => destruct b
  | |- phase_blind (match ?x with _ => _ end) => destruct x
  end.

Ltac blind :=
  repeat first
    [ assumption
    | match goal with H : forall _, phase_blind _ |- _ => apply H end
    | blind_step ].

Lemma blind_approval self : phase_blind (ApproveHSMPolicy_interact self).
Proof.
  unfold_approval. unfold modify_ux, self_attr. blind.
Qed.

Lemma blind_heartbeat : phase_blind heartbeat_display.
Proof.
  intros fault w n.
  destruct (cylon_in_range (phase (hsm_ux_obj w) + 1)) as [x Hx].
  destruct (cylon_in_range (n + 1)) as [y Hy].
  exists ((n + 1) mod length cylon).
  unfold heartbeat_display, list_index, dis, bind, self_attr, modify_ux, gets,
    modify, call, ret, raise.
  ux_simpl. unfold with_phase. ux_simpl. rewrite Hx, Hy.
  destruct fault as [[]|]; cbn [show_stage_eqb fst snd];
    eexists; (split; [reflexivity|]); reflexivity.
Qed.

Lemma blind_draw_busy msg pct : phase_blind (draw_busy msg pct).
Proof. unfold draw_busy, dis, modify_ux, self_attr. blind. Qed.

Lemma blind_show : phase_blind show.
Proof.
  pose proof blind_heartbeat. pose proof (blind_draw_busy None None).
  unfold show, draw_stat, dis, modify_ux, self_attr. blind.
Qed.

Lemma blind_handle_key ch : phase_blind (handle_key ch).
Proof. unfold handle_key, modify_ux, self_attr. blind. Qed.

Lemma blind_loop_body : phase_blind loop_body.
Proof.
  pose proof blind_show. pose proof blind_handle_key.
  pose proof blind_approval.
  unfold loop_body, poll_input, service_request, modify_ux, self_attr. blind.
Qed.

Lemma blind_lockdown_loop envs : phase_blind (lockdown_loop envs).
Proof.
  pose proof blind_loop_body.
  induction envs as [|e rest IH]; cbn [lockdown_loop]; unfold self_attr; blind.
Qed.


(** C9: an iteration of the loop that runs to its end leaves the heartbeat
    position one step further in the cyclic table of 53 offsets, whatever
    the poll delivers; [show] with a working display always gets there; and
    the heartbeat position at the start of an iteration, or of a run of the
    loop, changes nothing of its result, of its events other than the
    heartbeat lines, and of the final world other than the heartbeat
    position. *)
Theorem heartbeat_advances_and_is_cosmetic :
  length cylon = 53 /\
  (forall e w,
     wp loop_body e w
        (fun r w' _ =>
           r = Ret tt ->
           phase (hsm_ux_obj w') = (phase (hsm_ux_obj w) + 1) mod length cylon)) /\
  (forall w, is_Some (hsm_active w) ->
     wp show None w
        (fun r w' _ =>
           r = Ret tt /\
           phase (hsm_ux_obj w') = (phase (hsm_ux_obj w) + 1) mod length cylon)) /\
  phase_blind loop_body /\
  (forall envs, phase_blind (lockdown_loop envs)).
Proof.
  clear_params.
  split; [reflexivity|]. split; [|split; [|split]].
  - intros e w. eapply wp_conseq; [apply loop_body_frame|]. cbv beta. tauto.
  - intros w Hact. eapply wp_conseq; [apply show_spec|]. cbv beta.
    intros r w' t (_ & _ & _ & _ & _ & _ & Hph & Hret).
    specialize (Hret eq_refl Hact). auto.
  - exact blind_loop_body.
  - exact blind_lockdown_loop.
Qed.

(** ** Further properties of the approval *)

(** Symbolic execution with the postcondition put aside until the paths
    are known. *)
Ltac wp_walk_with tac :=
  let post := fresh "post" in
  let Hpost := fresh "Hpost" in
  match goal with |- wp _ _ _ ?Q => remember Q as post eqn:Hpost end;
  tac; subst post; cbv beta.

Ltac wp_walk := wp_walk_with ltac:(wp_go).

Ltac approval_leaf :=
  store_simpl; obj_simpl; trace_simpl; cbn [is_done count_events List.filter length];
  repeat match goal with
    | |- _ /\ _ => split
    | |- _ <-> _ => split
    | |- _ -> _ => intros ?
    | |- forall _, _ => intros ?
    end;
  repeat match goal with u : unit |- _ => destruct u end;
  try first [ reflexivity | discriminate | congruence | lia
            | solve [cbn [In]; tauto]
            | match goal with H : Raise _ = Raise _ |- _ => injection H as <-; solve [eauto] end ].

(** X1: every run of the action on an existing object ends with [ux_done]
    set and with the policy and [new_file] as they were; a refused action
    calls [self.done()] once and [policy.activate] not at all, an approved
    one calls [policy.activate] once and [self.done()] not at all; and no
    exception of the presentation escapes: the run raises only what that
    last call raises. *)
Theorem approval_always_concludes self a e w :
  heap w !! self = Some a ->
  wp (ApproveHSMPolicy_interact self) e w
     (fun r w' t =>
        exists a',
          heap w' !! self = Some a' /\ ux_done a' = true /\
          policy a' = policy a /\ new_file a' = new_file a /\
          (refused a' = true ->
             count_events is_done t = 1 /\ In (EvDone self) t /\
             count_events is_activate t = 0 /\
             hsm_active w' = hsm_active w /\
             (r = Ret tt <-> ae_done e = Returns tt)) /\
          (refused a' = false ->
             count_events is_done t = 0 /\
             count_events is_activate t = 1 /\
             In (EvActivate (policy a) (new_file a)) t /\
             (r = Ret tt <-> ae_activate e = Returns tt)) /\
          (forall x, r = Raise x ->
             exists y, x = External y /\
                       (ae_done e = Throws y \/ ae_activate e = Throws y))).
Proof.
  intros Ha. unfold_approval.
  wp_walk; (eexists; split; [solve_lookup|]); approval_leaf.
Qed.

(** X2: a run of the action changes no object but its own: the store keeps
    its size, every other reference points to what it pointed to, and the
    lockdown screen object is untouched; this holds for a reference to no
    object too, where the run raises and changes nothing. *)
Theorem approval_touches_only_its_object self e w :
  wp (ApproveHSMPolicy_interact self) e w
     (fun _ w' _ =>
        length (heap w') = length (heap w) /\
        (forall r, r <> self -> heap w' !! r = heap w !! r) /\
        hsm_ux_obj w' = hsm_ux_obj w).
Proof.
  unfold_approval.
  wp_walk; store_simpl; unfold put_obj; cbn [heap set_heap set_hsm_active
    set_active_request hsm_ux_obj];
    rewrite ?length_insert;
    (split; [reflexivity|]); (split; [|reflexivity]);
    intros r Hr; rewrite ?list_lookup_insert_ne by congruence; reflexivity.
Qed.

(** X3: a run shows at most two stories and draws at most one random
    number; a second story is shown only for an object with [new_file] set
    whose first story was answered with the confirm key, and exactly then
    the random number is drawn. *)
Theorem approval_story_budget self e w :
  wp (ApproveHSMPolicy_interact self) e w
     (fun _ _ t =>
        count_events is_story t <= 2 /\
        count_events is_random t <= 1 /\
        (count_events is_random t = 1 \/ count_events is_story t = 2 ->
           ae_story1 e = Returns "y" /\
           exists a, heap w !! self = Some a /\ new_file a = true) /\
        (count_events is_story t = 2 -> count_events is_random t = 1)).
Proof.
  unfold_approval.
  wp_walk; trace_simpl;
    repeat match goal with
      | |- _ /\ _ => split
      | |- _ -> _ => intros ?
      end;
    try lia;
    try (exfalso; match goal with H : _ \/ _ |- _ => destruct H; lia end).
  all: repeat match goal with
         | H : _ && _ = true |- _ => apply andb_true_iff in H as [? ?]
         | H : negb (negb _) = true |- _ => rewrite negb_involutive in H
         end; bool_facts.
  all: try discriminate; try reflexivity; eauto.
Qed.

(** ** Further properties of the loader *)

Ltac loader_leaf :=
  store_simpl; cbn [heap set_heap hsm_ux_obj hsm_active];
  rewrite ?app_nil_r; cbn [app];
  cbn [List.filter is_ux_insert is_read is_activate count_events length];
  repeat match goal with
    | |- _ /\ _ => split
    | |- _ -> _ => intros ?
    | |- forall _, _ => intros ?
    end;
  clash;
  try first [ reflexivity | discriminate | congruence
            | match goal with H : Ret _ = Ret _ |- _ => injection H as <-; reflexivity end
            | match goal with H : forall ar, _ <> _ |- _ => exfalso; eapply H; reflexivity end
            | solve [eauto] ].

Ltac loader_source :=
  try match goal with H : Ret _ = Ret _ |- _ => injection H as <- end;
  try solve
    [ do 4 eexists;
      (split;
       [ first [ left; split; [assumption | reflexivity]
               | right; split; reflexivity ] |]);
      (split; [eassumption|]); (split; [eassumption|]);
      repeat split ].

Ltac loader_text :=
  repeat match goal with
    | H : ?f = Throws _, H' : ?f = Throws _ |- _ => rewrite H in H'; injection H' as <-
    end;
  cbv zeta; rewrite ?app_nil_r; cbn [app];
  cbn [count_events List.filter is_story length In];
  repeat match goal with
    | |- _ /\ _ => split
    | |- forall _, _ => intros ?
    end;
  clash;
  try first
    [ reflexivity | discriminate | congruence
    | solve [intuition discriminate]
    | match goal with
      | |- exists t0, ?a :: ?b :: ?c :: ?d :: nil = _ => exists [a; b]; reflexivity
      end ].

(** X4: an action that the loader returns is a new object at the end of
    the store, holding the policy that [HSMPolicy.load] made of the text
    read and [new_file] set exactly for a text from the transfer buffer;
    the objects there were are untouched; and the action is put on screen
    not at all in startup mode, else by [abort_and_goto] in USB mode and by
    [the_ux.push] from the menu, once. *)
Theorem loader_places_fresh_action sf_len usb_mode startup_mode e w :
  wp (start_hsm_approval sf_len usb_mode startup_mode) e w
     (fun r w' t =>
        forall ar, r = Ret (Some ar) ->
          ar = length (heap w) /\
          (exists json js p obj,
             read_text sf_len e json /\ ujson_loads json = Returns js /\
             HSMPolicy_load js = Returns p /\
             heap w' = heap w ++ [obj] /\ policy obj = p /\
             new_file obj = negb (sf_len =? 0)%Z) /\
          List.filter is_ux_insert t =
            (if startup_mode then []
             else if usb_mode then [EvAbortAndGoto ar] else [EvUxPush ar])).
Proof.
  unfold_loader. unfold read_text.
  destruct (Z.eqb_spec sf_len 0) as [Hz | Hz].
  - rewrite Hz. wp_walk; loader_leaf; loader_source.
  - wp_walk; loader_leaf; loader_source.
Qed.

(** X5: the loader never enters HSM mode: it leaves [main.hsm_active] and
    the lockdown screen object alone and calls no [policy.activate]; it
    starts with [UserAuthorizedAction.cleanup()], keeps the objects there
    were, and whenever it does not return an action, whether it raises or
    returns [None], it has created no object and the slot of the active
    request is empty. *)
Theorem loader_never_activates sf_len usb_mode startup_mode e w :
  wp (start_hsm_approval sf_len usb_mode startup_mode) e w
     (fun r w' t =>
        hsm_active w' = hsm_active w /\ hsm_ux_obj w' = hsm_ux_obj w /\
        count_events is_activate t = 0 /\
        (exists t', t = EvCleanup :: t') /\
        (exists more, heap w' = heap w ++ more) /\
        ((forall ar, r <> Ret (Some ar)) ->
           heap w' = heap w /\ active_request w' = None)).
Proof.
  unfold_loader.
  destruct (Z.eqb_spec sf_len 0) as [Hz | Hz].
  - rewrite Hz. wp_walk; loader_leaf;
      try (eexists; rewrite ?app_nil_r; reflexivity).
  - wp_walk; loader_leaf;
      try (eexists; rewrite ?app_nil_r; reflexivity).
Qed.

(** X6: every run of the loader reads exactly one source, the transfer
    buffer for a length other than zero and the policy file otherwise; and
    a failure to read the transfer buffer is passed on as it is: nothing
    else is called, nothing is created, and it is not reported as a
    missing or an invalid policy. *)
Theorem loader_reads_one_source sf_len usb_mode startup_mode e w :
  wp (start_hsm_approval sf_len usb_mode startup_mode) e w
     (fun r w' t =>
        List.filter is_read t =
          [if (sf_len =? 0)%Z then EvReadFile POLICY_FNAME else EvReadTransfer sf_len] /\
        (sf_len <> 0%Z -> forall x, le_transfer e = Throws x ->
           r = Raise (External x) /\ t = [EvCleanup; EvReadTransfer sf_len] /\
           heap w' = heap w)).
Proof.
  unfold_loader.
  destruct (Z.eqb_spec sf_len 0) as [Hz | Hz].
  - rewrite Hz. wp_walk; loader_leaf.
  - wp_walk; loader_leaf.
Qed.

(** X7: what the loader reports for a text it cannot use. When
    [ujson.loads] raises, whatever it raises, the report is made from the
    [ValueError] "JSON parse fail"; when [HSMPolicy.load] raises, from that
    exception. In USB mode the report is raised as a [ValueError] and
    nothing is printed or shown; otherwise it is printed, then shown in a
    story, and the loader returns [None] when the story returns and passes
    on what the story raises. *)
Theorem loader_error_text sf_len usb_mode startup_mode e w json :
  read_text sf_len e json ->
  wp (start_hsm_approval sf_len usb_mode startup_mode) e w
     (fun r _ t =>
        forall exc,
          (exists x, ujson_loads json = Throws x) /\ exc = ValueError "JSON parse fail" \/
          (exists js x, ujson_loads json = Returns js /\
                        HSMPolicy_load js = Throws x /\ exc = External x) ->
          let err := policy_invalid exc in
          if usb_mode then
            r = Raise (ValueError err) /\ count_events is_story t = 0 /\
            ~ In (EvPrint err) t
          else
            (exists t0,
               t = t0 ++ [EvPrint err;
                          EvStory ("Cannot start HSM." +:+ LF +:+ LF +:+ err)
                                  None None false]) /\
            (forall ch, le_story e = Returns ch -> r = Ret None) /\
            (forall y, le_story e = Throws y -> r = Raise (External y))).
Proof.
  intros [[Hlen Hread] | [Hlen Hread]]; unfold_loader.
  - apply Z.eqb_neq in Hlen. rewrite Hlen. cbn [negb].
    wp_walk; intros exc [[[x Hx] ->] | (js & x & Hjs & Hx & ->)]; clash;
      try congruence; loader_text.
  - rewrite Hlen. cbn [Z.eqb negb].
    wp_walk; intros exc [[[x Hx] ->] | (js & x & Hjs & Hx & ->)]; clash;
      try congruence; loader_text.
Qed.

(** ** From the loader to the decision *)

(** What an approved run tells about the gestures. *)
Lemma approval_decision self a e w :
  heap w !! self = Some a ->
  wp (ApproveHSMPolicy_interact self) e w
     (fun _ w' t =>
        (terminal_approved self w' \/ terminal_refused self w') /\
        (terminal_approved self w' ->
           ae_story1 e = Returns "y" /\
           (new_file a = true ->
              exists tok, In tok token_alphabet /\ ae_story2 e = Returns tok /\
                          confirmation_tokens t = [tok]) /\
           (new_file a = false ->
              count_events is_story t = 1 /\ count_events is_random t = 0)) /\
        (terminal_refused self w' ->
           hsm_active w' = hsm_active w /\ count_events is_activate t = 0)).
Proof.
  intros Ha. unfold_approval.
  wp_walk;
    (erewrite terminal_approved_at by solve_lookup);
    (erewrite terminal_refused_at by solve_lookup);
    obj_simpl; store_simpl; trace_simpl.
  all: repeat match goal with
         | H : _ && _ = true |- _ => apply andb_true_iff in H as [? ?]
         | H : _ && _ = false |- _ => apply andb_false_iff in H
         | H : negb (negb _) = _ |- _ => rewrite negb_involutive in H
         end; bool_facts.
  all: repeat match goal with
         | |- _ /\ _ => split
         | |- _ -> _ => intros ?
         | H : _ /\ _ |- _ => destruct H as [? ?]
         end.
  all: try first [ reflexivity | discriminate | congruence | tauto ].
  all: repeat match goal with H : _ \/ _ |- _ => destruct H end;
    bool_facts; try first [ discriminate | congruence ].
  all: eexists; (split; [eapply alphabet_get; eassumption|]); split; reflexivity.
Qed.

(** X8: an approved run proves the gestures: the action ends approved or
    refused; it ends approved only if the first story was answered with the
    confirm key and, for an object with [new_file] set, the second story
    with the one token it asked for, a character of the confirmation
    alphabet; without [new_file] an approved run showed one story and drew
    no number; and a refused run leaves [main.hsm_active] as it was and
    calls no [policy.activate]. *)
Theorem approval_requires_gestures self a e w :
  heap w !! self = Some a ->
  wp (ApproveHSMPolicy_interact self) e w
     (fun _ w' t =>
        (terminal_approved self w' \/ terminal_refused self w') /\
        (terminal_approved self w' ->
           ae_story1 e = Returns "y" /\
           (new_file a = true ->
              exists tok, In tok token_alphabet /\ ae_story2 e = Returns tok /\
                          confirmation_tokens t = [tok]) /\
           (new_file a = false ->
              count_events is_story t = 1 /\ count_events is_random t = 0)) /\
        (terminal_refused self w' ->
           hsm_active w' = hsm_active w /\ count_events is_activate t = 0)).
Proof. exact (approval_decision self a e w). Qed.

Lemma loader_result sf_len usb_mode startup_mode e w :
  wp (start_hsm_approval sf_len usb_mode startup_mode) e w
     (fun r w' _ =>
        forall ar, r = Ret (Some ar) ->
          hsm_active w' = hsm_active w /\
          exists obj, heap w' !! ar = Some obj /\
                      new_file obj = negb (sf_len =? 0)%Z).
Proof.
  unfold_loader.
  destruct (Z.eqb_spec sf_len 0) as [Hz | Hz].
  - rewrite Hz. wp_walk; intros ar Har; try discriminate Har;
      injection Har as <-; (split; [reflexivity|]);
      eexists; (split; [apply lookup_new_object|]); reflexivity.
  - wp_walk; intros ar Har; try discriminate Har;
      injection Har as <-; (split; [reflexivity|]);
      eexists; (split; [apply lookup_new_object|]); reflexivity.
Qed.

(** X9: the loader and the action together. Whatever action the loader
    returns, a run of it ends approved or refused; for a text from the
    transfer buffer it ends approved only after the confirm key on the
    first story and the token asked for on the second, for a text from the
    policy file only after the confirm key on the one story it shows; and
    when it ends refused [main.hsm_active] is what it was before the
    loader ran. *)
Theorem loaded_policy_needs_its_gestures sf_len usb_mode startup_mode e w :
  wp (start_hsm_approval sf_len usb_mode startup_mode) e w
     (fun r w1 _ =>
        forall ar, r = Ret (Some ar) ->
        forall e2,
          wp (ApproveHSMPolicy_interact ar) e2 w1
             (fun _ w2 t2 =>
                (terminal_approved ar w2 \/ terminal_refused ar w2) /\
                (terminal_approved ar w2 ->
                   ae_story1 e2 = Returns "y" /\
                   (sf_len <> 0%Z ->
                      exists tok, In tok token_alphabet /\
                                  ae_story2 e2 = Returns tok /\
                                  confirmation_tokens t2 = [tok]) /\
                   (sf_len = 0%Z -> count_events is_story t2 = 1)) /\
                (terminal_refused ar w2 ->
                   hsm_active w2 = hsm_active w /\
                   count_events is_activate t2 = 0))).
Proof.
  eapply wp_conseq; [apply loader_result|]. cbv beta.
  intros r w1 t1 Hres ar Har e2.
  destruct (Hres ar Har) as (Hact & obj & Hobj & Hnew).
  eapply wp_conseq; [apply (approval_decision ar obj e2 w1 Hobj)|]. cbv beta.
  intros _ w2 t2 (Hend & Happ & Href).
  split; [exact Hend|]. split.
  - intros H. destruct (Happ H) as (Hy & Hn & Hf).
    split; [exact Hy|]. split.
    + intros Hz. apply Hn. rewrite Hnew. apply Z.eqb_neq in Hz. by rewrite Hz.
    + intros Hz. apply Hf. rewrite Hnew, Hz. reflexivity.
  - intros H. destruct (Href H) as [H1 H2]. split; [congruence|exact H2].
Qed.

(** ** Further properties of the lockdown screen *)

Ltac unfold_show :=
  unfold show, heartbeat_display, draw_stat, draw_busy, list_index, dis.

Ltac screen_leaf :=
  rewrite ?app_nil_r; cbn [app]; store_simpl; ux_simpl;
  cbn [omap digit_feedback Z.eqb Pos.eqb andb count_events List.filter length
       is_refresh is_restore is_save is_poll is_goto_top];
  repeat match goal with
    | |- _ /\ _ => split
    | |- _ -> _ => intros ?
    | |- forall _, _ => intros ?
    end;
  bool_facts;
  try first [ reflexivity | discriminate | congruence | contradiction
            | solve [cbn [In]; tauto] ].

(** X10: the lockdown screen cannot be drawn without an active policy:
    with [main.hsm_active] at [None], [show] restores the background and
    then fails with an [AttributeError], before any statistic is drawn and
    with the heartbeat where it was; and a run of [interact] then ends in
    its first iteration with that error, before the keypad is polled. *)
Theorem show_needs_active_policy :
  (forall fault w, hsm_active w = None ->
     wp show fault w
        (fun r w' t =>
           r = Raise AttributeError /\ w' = w /\ t = [EvDraw RestoreBackground])) /\
  (forall e rest w, hsm_active w = None ->
     wp (hsmUxInteraction_interact (e :: rest)) tt w
        (fun r w' t =>
           r = Raise AttributeError /\ hsm_active w' = None /\
           count_events is_poll t = 0 /\ count_events is_goto_top t = 0)).
Proof.
  clear_params.
  assert (forall fault w, hsm_active w = None ->
            wp show fault w
               (fun r w' t =>
                  r = Raise AttributeError /\ w' = w /\
                  t = [EvDraw RestoreBackground])) as Hshow.
  { intros fault w Hact. unfold show. wp_go. repeat split. }
  split; [exact Hshow|].
  intros e rest w Hact. unfold hsmUxInteraction_interact.
  wp_step. wp_step. eapply wp_bind_spec; [apply draw_background_spec|].
  cbv beta. intros r0 w0 t0 (-> & -> & Hbg).
  pose proof (Hbg is_poll (fun _ => eq_refl) (fun _ => eq_refl)) as Hp.
  pose proof (Hbg is_goto_top (fun _ => eq_refl) (fun _ => eq_refl)) as Hg.
  cbn [lockdown_loop]. unfold loop_body.
  repeat wp_step.
  eapply wp_conseq; [apply Hshow; exact Hact|]. cbv beta.
  intros r w1 t1 (-> & -> & ->).
  rewrite ?app_nil_r. cbn [app]. rewrite !count_events_cons, !count_events_app, Hp, Hg.
  repeat split; assumption.
Qed.

Lemma background_label_trace x lab xoff e w :
  wp (background_label x lab xoff) e w
     (fun r w' t =>
        (exists v, r = Ret v) /\ w' = w /\
        Forall (fun ev => is_label_event ev = true) t).
Proof.
  unfold background_label.
  destruct (lab =? "REFUSED")%string; [|destruct (xoff =? 0)%Z];
    repeat wp_step; (split; [eauto|split; [reflexivity|]]);
    cbn [app]; repeat constructor.
Qed.

(** The background: the head of the screen, the three labels, the lower
    line, the empty field of the digits, and the copy into [screen_buf]. *)
Lemma draw_background_trace e w :
  wp draw_background e w
     (fun r w' t =>
        r = Ret tt /\ w' = w /\
        exists labels,
          Forall (fun ev => is_label_event ev = true) labels /\
          t = [EvDraw Clear; EvDraw (Text (Some 4%Z) 0 "HSM MODE");
               EvDraw (HLine 15); EvDraw DisShow]
              ++ labels
              ++ [EvDraw (HLine (28 + 17)); EvDraw (Text (Some 80%Z) 0 "######");
                  EvDraw SaveBackground]).
Proof.
  unfold draw_background.
  do 8 wp_step.
  eapply wp_bind_spec; [apply background_label_trace|].
  cbv beta. intros r1 w1 t1 ([x1 ->] & -> & H1).
  eapply wp_bind_spec; [apply background_label_trace|].
  cbv beta. intros r2 w2 t2 ([x2 ->] & -> & H2).
  eapply wp_bind_spec; [apply background_label_trace|].
  cbv beta. intros r3 w3 t3 ([x3 ->] & -> & H3).
  repeat wp_step. split; [reflexivity|]. split; [reflexivity|].
  exists (t1 ++ t2 ++ t3). split.
  - rewrite !Forall_app. auto.
  - rewrite ?app_nil_r. cbn [app]. rewrite <- !app_assoc. reflexivity.
Qed.

Lemma labels_no_feedback t :
  Forall (fun ev => is_label_event ev = true) t -> omap digit_feedback t = [].
Proof.
  induction 1 as [|ev t Hev _ IH]; [reflexivity|].
  change (ev :: t) with ([ev] ++ t). rewrite omap_app, IH, app_nil_r.
  destruct ev as [| | | | | | | | | | | | | |d| | | | | | |]; try discriminate Hev;
    [reflexivity|]. by destruct d.
Qed.

Lemma str_mul_length (n : nat) : String.length (str_mul "#" n) = n.
Proof.
  induction n as [|n IH]; [reflexivity|].
  cbn [str_mul]. rewrite string_length_append, IH. reflexivity.
Qed.

Lemma string_app_empty (s : string) : s +:+ "" = s.
Proof.
  induction s as [|c s IH]; [reflexivity|].
  change (String c (s +:+ "") = String c s). by rewrite IH.
Qed.

(** X11: the field of the local digits. With no digit entered [show]
    writes nothing into the field, so it keeps the six [#] of the
    background. With digits entered [show] clears the field and writes one
    text into it: the digits, filled up with [#] to six characters; so for
    up to six digits the text has six characters. *)
Theorem show_digit_feedback w p :
  hsm_active w = Some p ->
  wp show None w
     (fun r _ t =>
        let d := digits (hsm_ux_obj w) in
        r = Ret tt /\
        (d = "" -> omap digit_feedback t = [] /\
                   ~ In (EvDraw (ClearRect 80 0 (80 + 42) (0 + 14))) t) /\
        (d <> "" ->
           In (EvDraw (ClearRect 80 0 (80 + 42) (0 + 14))) t /\
           exists msg, omap digit_feedback t = [msg] /\
             msg = d +:+ str_mul "#" (6 - String.length d) /\
             String.length msg = Nat.max 6 (String.length d))) /\
  wp draw_background tt w
     (fun _ _ t => omap digit_feedback t = ["######"]).
Proof.
  intros Hact. split.
  - destruct (cylon_in_range (phase (hsm_ux_obj w) + 1)) as [x Hx].
    unfold_show. wp_walk; cbv zeta; screen_leaf.
    all: try (cbn [In]; intuition discriminate).
    all: eexists; (split; [reflexivity|]).
    all: destruct (Nat.ltb_spec (String.length (digits (hsm_ux_obj w))) 6) as [Hlt | Hge].
    all: rewrite ?string_length_append, ?str_mul_length.
    all: try (split; [reflexivity|lia]).
    all: replace (6 - String.length (digits (hsm_ux_obj w))) with 0 by lia.
    all: cbn [str_mul]; rewrite string_app_empty; split; [reflexivity|lia].
  - eapply wp_conseq; [apply draw_background_trace|]. cbv beta.
    intros r w' t (_ & _ & labels & Hlab & ->).
    rewrite !omap_app, (labels_no_feedback labels Hlab). reflexivity.
Qed.

(** One call of [show] with an active policy and a working display. *)
Lemma show_screen w p :
  hsm_active w = Some p ->
  wp show None w
     (fun r w' t =>
        r = Ret tt /\
        (exists t', t = EvDraw RestoreBackground :: t' ++ [EvDraw DisShow] /\
                    count_events is_refresh t' = 0 /\
                    count_events is_restore t' = 0) /\
        busy_text (hsm_ux_obj w') = busy_text (hsm_ux_obj w) /\
        percent (hsm_ux_obj w') = percent (hsm_ux_obj w) /\
        (forall m, busy_text (hsm_ux_obj w) = Some m ->
           In (EvDraw (Text None 48 m)) t) /\
        (busy_text (hsm_ux_obj w) = None ->
           forall m, ~ In (EvDraw (Text None 48 m)) t) /\
        (forall v, percent (hsm_ux_obj w) = Some v ->
           In (EvDraw (BarLine 0 63 (Qtrunc (128 * v)) true)) t) /\
        (percent (hsm_ux_obj w) = None ->
           forall x y len c, ~ In (EvDraw (BarLine x y len c)) t)).
Proof.
  intros Hact.
  destruct (cylon_in_range (phase (hsm_ux_obj w) + 1)) as [x Hx].
  unfold_show. wp_walk; rewrite ?app_nil_r; cbn [app]; store_simpl; ux_simpl.
  all: split; [reflexivity|]; split;
    [ match goal with
      | |- exists t', ?a :: ?l = ?a :: t' ++ [?z] /\ _ =>
          exists (removelast l); cbn [removelast app]; repeat split
      end
    | ].
  all: repeat match goal with
         | |- _ /\ _ => split
         | |- forall _, _ => intros ?
         end;
       try first [ reflexivity | discriminate | congruence
                 | match goal with
                   | H : Some _ = Some _ |- _ => injection H as <-; cbn [In]; tauto
                   end
                 | cbn [In]; intuition discriminate ].
Qed.

(** X12: one call of [show] with an active policy and a working display
    first copies the saved background back, draws, and sends the picture
    to the display once, as its last step; it keeps the busy text and the
    progress value of the screen object, and draws them again when they
    are set: the text at line 48, the bar in the bottom row up to the
    pixel [int(128 * percent)]. *)
Theorem show_refreshes_once w p :
  hsm_active w = Some p ->
  wp show None w
     (fun r w' t =>
        r = Ret tt /\
        (exists t', t = EvDraw RestoreBackground :: t' ++ [EvDraw DisShow] /\
                    count_events is_refresh t' = 0 /\
                    count_events is_restore t' = 0) /\
        busy_text (hsm_ux_obj w') = busy_text (hsm_ux_obj w) /\
        percent (hsm_ux_obj w') = percent (hsm_ux_obj w) /\
        (forall m, busy_text (hsm_ux_obj w) = Some m ->
           In (EvDraw (Text None 48 m)) t) /\
        (busy_text (hsm_ux_obj w) = None ->
           forall m, ~ In (EvDraw (Text None 48 m)) t) /\
        (forall v, percent (hsm_ux_obj w) = Some v ->
           In (EvDraw (BarLine 0 63 (Qtrunc (128 * v)) true)) t) /\
        (percent (hsm_ux_obj w) = None ->
           forall x y len c, ~ In (EvDraw (BarLine x y len c)) t)).
Proof. exact (show_screen w p). Qed.

(** *** What the loop draws *)

Lemma cylon_bound i x : cylon !! i = Some x -> x <= 116.
Proof.
  clear_params.
  assert (Forall (fun x => x <= 116) cylon) as Hall
    by (unfold cylon; repeat constructor; lia).
  intros Hi. exact (proj1 (Forall_lookup _ _) Hall i x Hi).
Qed.

Ltac drawing_leaf :=
  rewrite ?app_nil_r; cbn [app];
  repeat (apply List.Forall_cons;
          [ split; [first [exact I | cbn [heartbeat_on_screen]; lia] | reflexivity ] |]);
  try apply List.Forall_nil.

Lemma show_drawing fault w :
  wp show fault w
     (fun r _ t => r <> Raise IndexError /\ Forall loop_drawing_ok t).
Proof.
  destruct (cylon_in_range (phase (hsm_ux_obj w) + 1)) as [x Hx].
  pose proof (cylon_bound _ _ Hx) as Hb.
  unfold_show.
  destruct fault as [[]|]; wp_walk; (split; [discriminate|]); drawing_leaf.
Qed.

Lemma no_drawing_ok t :
  Forall (fun ev => is_draw ev = false) t -> Forall loop_drawing_ok t.
Proof.
  apply List.Forall_impl. intros [] Hev; try discriminate Hev; split; try exact I; reflexivity.
Qed.

Lemma pins_drawing_ok t :
  Forall (fun ev => is_local_pin ev = true) t -> Forall loop_drawing_ok t.
Proof.
  intros H. apply no_drawing_ok. revert H. apply List.Forall_impl.
  intros [] Hev; try discriminate Hev; reflexivity.
Qed.

Lemma approval_drawing_ok t :
  Forall (fun ev => is_loop_event ev = false) t -> Forall loop_drawing_ok t.
Proof.
  intros H. apply no_drawing_ok. revert H. apply List.Forall_impl.
  intros [] Hev; try discriminate Hev; reflexivity.
Qed.

(** Use what is known of the procedures called, for the drawing. *)
Ltac wp_spec_drawing :=
  lazymatch goal with
  | |- wp show _ _ _ =>
      eapply wp_conseq; [apply show_drawing | cbv beta; intros ? ? ? ?]
  | |- wp (handle_key _) _ _ _ =>
      eapply wp_conseq; [apply handle_key_spec | cbv beta; intros ? ? ? ?]
  | |- wp (ApproveHSMPolicy_interact _) _ _ _ =>
      eapply wp_conseq; [apply approval_frame | cbv beta; intros ? ? ? ?]
  end;
  repeat match goal with H : _ /\ _ |- _ => destruct H as [? ?] end.

Ltac wp_run_drawing :=
  clear_params;
  repeat first [ wp_step | progress use_facts | wp_spec_drawing | wp_case ].

Ltac drawing_parts :=
  rewrite ?app_nil_r; cbn [app];
  repeat first
    [ assumption
    | apply List.Forall_nil
    | apply Forall_app; split
    | apply List.Forall_cons; [split; [exact I | reflexivity]|]
    | apply pins_drawing_ok; assumption
    | apply approval_drawing_ok; assumption ].

Lemma loop_body_drawing e w :
  wp loop_body e w (fun _ _ t => Forall loop_drawing_ok t).
Proof.
  unfold loop_body, poll_input, service_request.
  wp_walk_with ltac:(wp_run_drawing); drawing_parts.
Qed.

Lemma lockdown_loop_drawing envs : forall w,
  wp (lockdown_loop envs) tt w (fun _ _ t => Forall loop_drawing_ok t).
Proof.
  induction envs as [|e rest IH]; intros w; cbn [lockdown_loop].
  - wp_go; constructor.
  - wp_step. wp_step. wp_case; [wp_go; constructor|].
    eapply wp_bind_spec; [apply wp_local, loop_body_drawing|].
    cbv beta. intros r w1 t1 H1. destruct r as [[]|x]; [|exact H1].
    eapply wp_conseq; [apply IH|]. cbv beta. intros r2 w2 t2 H2.
    cbn [app]. apply Forall_app. by split.
Qed.

Lemma count_events_zero f t :
  Forall (fun ev => f ev = false) t -> count_events f t = 0.
Proof.
  unfold count_events. induction 1 as [|ev t Hev _ IH]; [reflexivity|].
  cbn [List.filter]. by rewrite Hev.
Qed.

Lemma labels_drawing t :
  Forall (fun ev => is_label_event ev = true) t ->
  Forall heartbeat_on_screen t /\
  count_events is_restore t = 0 /\ count_events is_save t = 0.
Proof.
  intros H. split; [|split].
  - revert H. apply List.Forall_impl. intros [] Hev; try exact I.
    destruct d; try exact I. discriminate Hev.
  - apply count_events_zero. revert H. apply List.Forall_impl.
    intros [] Hev; try reflexivity. destruct d; try reflexivity; discriminate Hev.
  - apply count_events_zero. revert H. apply List.Forall_impl.
    intros [] Hev; try reflexivity. destruct d; try reflexivity; discriminate Hev.
Qed.

(** The events of a run of [interact]: the hooks, the background with its
    copy into [screen_buf] at the end, and then what the loop and the way
    out make. *)
Lemma interact_drawing envs w :
  wp (hsmUxInteraction_interact envs) tt w
     (fun _ _ t =>
        exists labels after,
          Forall (fun ev => is_label_event ev = true) labels /\
          Forall loop_drawing_ok after /\
          t = [EvInstallHooks; EvDraw Clear; EvDraw (Text (Some 4%Z) 0 "HSM MODE");
               EvDraw (HLine 15); EvDraw DisShow]
              ++ labels
              ++ [EvDraw (HLine (28 + 17)); EvDraw (Text (Some 80%Z) 0 "######")]
              ++ EvDraw SaveBackground :: after).
Proof.
  unfold hsmUxInteraction_interact.
  wp_step. wp_step. eapply wp_bind_spec; [apply draw_background_trace|].
  cbv beta. intros r0 w0 t0 (-> & -> & labels & Hlab & ->).
  wp_step. wp_step. wp_step. wp_step.
  eapply wp_bind_spec; [apply lockdown_loop_drawing|].
  cbv beta. intros r w1 t1 H1.
  destruct r as [[]|x].
  - wp_go; exists labels; eexists;
      (split; [exact Hlab|]);
      (split; [|rewrite ?app_nil_r; cbn [app]; rewrite <- !app_assoc; cbn [app];
                reflexivity]);
      rewrite ?app_nil_r; drawing_parts.
  - wp_go. exists labels, t1. split; [exact Hlab|]. split; [exact H1|].
    rewrite ?app_nil_r. cbn [app]. rewrite <- !app_assoc. reflexivity.
  - exists labels, t1. split; [exact Hlab|]. split; [exact H1|].
    rewrite ?app_nil_r. cbn [app]. rewrite <- !app_assoc. reflexivity.
Qed.

(** X13: the heartbeat never leaves the display. Whatever the heartbeat
    position was, a valid index or not, [show] raises no [IndexError], and
    every heartbeat line drawn in a run of [interact] starts at a column
    from 0 on, is twelve pixels long, ends at column 127 at most, and lies
    in row 63, the last of the display. *)
Theorem heartbeat_stays_on_screen :
  (forall fault w,
     wp show fault w
        (fun r _ t => r <> Raise IndexError /\ Forall heartbeat_on_screen t)) /\
  (forall envs w,
     wp (hsmUxInteraction_interact envs) tt w
        (fun _ _ t => Forall heartbeat_on_screen t)).
Proof.
  clear_params. split.
  - intros fault w. eapply wp_conseq; [apply show_drawing|]. cbv beta.
    intros r w' t [Hr Ht]. split; [exact Hr|].
    revert Ht. apply List.Forall_impl. by intros ev [? _].
  - intros envs w. eapply wp_conseq; [apply interact_drawing|]. cbv beta.
    intros r w' t (labels & after & Hlab & Hafter & ->).
    destruct (labels_drawing labels Hlab) as (Hl & _ & _).
    repeat first [ apply Forall_app; split | apply List.Forall_cons; [exact I|]
                 | apply List.Forall_nil | exact Hl ].
    revert Hafter. apply List.Forall_impl. by intros ev [? _].
Qed.

(** X14: the background is saved before it is used. In every run of
    [interact] the static picture is copied into [screen_buf] exactly
    once, after it has been drawn and before [show] copies it back for the
    first time. *)
Theorem background_saved_before_use envs w :
  wp (hsmUxInteraction_interact envs) tt w
     (fun _ _ t =>
        exists before after,
          t = before ++ EvDraw SaveBackground :: after /\
          count_events is_save before = 0 /\
          count_events is_restore before = 0 /\
          count_events is_save after = 0).
Proof.
  clear_params.
  eapply wp_conseq; [apply interact_drawing|]. cbv beta.
  intros r w' t (labels & after & Hlab & Hafter & ->).
  destruct (labels_drawing labels Hlab) as (_ & Hr & Hs).
  eexists; exists after. split; [rewrite !app_assoc; reflexivity|].
  rewrite !count_events_app, Hr, Hs. split; [reflexivity|]. split; [reflexivity|].
  apply count_events_zero. revert Hafter. apply List.Forall_impl. by intros ev [_ ?].
Qed.

(** *** The heartbeat position *)

Lemma lockdown_loop_phase envs : forall w,
  wp (lockdown_loop envs) tt w
     (fun r w' _ =>
        r = Ret StillLooping ->
        phase (hsm_ux_obj w') =
          match envs with
          | [] => phase (hsm_ux_obj w)
          | _ :: _ => (phase (hsm_ux_obj w) + length envs) mod length cylon
          end).
Proof.
  assert (length cylon <> 0) as Hlen by (clear_params; discriminate).
  induction envs as [|e rest IH]; intros w; cbn [lockdown_loop].
  - wp_go; intros; try reflexivity; discriminate.
  - wp_step. wp_step. wp_case; [wp_go; discriminate|].
    eapply wp_bind_spec; [apply wp_local, loop_body_frame|].
    cbv beta. intros r w1 t1 (_ & _ & _ & Hph & _).
    destruct r as [[]|x]; [|discriminate].
    specialize (Hph eq_refl).
    eapply wp_conseq; [apply IH|]. cbv beta. intros r2 w2 t2 H2 Hr.
    rewrite (H2 Hr), Hph. destruct rest as [|e' rest'].
    + reflexivity.
    + cbn [length]. rewrite Nat.Div0.add_mod_idemp_l.
      f_equal. lia.
Qed.

(** X15: the heartbeat position counts the iterations. A run of the loop
    that has made all of its [n] iterations, [n] not zero, has moved the
    heartbeat position from [phase] to [(phase + n) mod 53]; so after 53
    iterations a position below 53 is where it was. *)
Theorem heartbeat_counts_iterations envs w :
  wp (lockdown_loop envs) tt w
     (fun r w' _ =>
        r = Ret StillLooping ->
        (envs <> [] ->
           phase (hsm_ux_obj w') =
             (phase (hsm_ux_obj w) + length envs) mod length cylon) /\
        (length envs = length cylon -> phase (hsm_ux_obj w) < length cylon ->
           phase (hsm_ux_obj w') = phase (hsm_ux_obj w))).
Proof.
  eapply wp_conseq; [apply lockdown_loop_phase|]. cbv beta.
  intros r w' t H Hr. specialize (H Hr).
  assert (length cylon = 53) as Hlen by (clear_params; reflexivity).
  destruct envs as [|e rest]; (split; [intros Hne | intros Hn Hlt]);
    try congruence; try (cbn [length] in Hn; lia).
  rewrite H, Hn.
  rewrite <- Nat.Div0.add_mod_idemp_r, Nat.Div0.mod_same, Nat.add_0_r.
  apply Nat.mod_small. exact Hlt.
Qed.

(** ** The busy text and the progress bar *)

(** The float [0.995] lies below the number 995/1000. *)
Lemma float_below_decimal (v : Q) : (995 # 1000 <= v)%Q -> (float_0_995 <= v)%Q.
Proof.
  clear_params. apply Qle_trans. unfold float_0_995, Qle. cbn [Qnum Qden]. lia.
Qed.

Lemma progress_done (v : Q) : (float_0_995 <= v)%Q -> Qle_bool float_0_995 v = true.
Proof. clear_params. apply Qle_bool_iff. Qed.

Lemma progress_going (v : Q) : (v < float_0_995)%Q -> Qle_bool float_0_995 v = false.
Proof.
  clear_params.
  intros Hlt. destruct (Qle_bool float_0_995 v) eqn:Hb; [|reflexivity].
  apply Qle_bool_iff in Hb. exfalso. exact (Qlt_not_le _ _ Hlt Hb).
Qed.

Lemma bar_end_on_screen (v : Q) :
  (0 <= v)%Q -> (v < float_0_995)%Q -> (0 <= Qtrunc (128 * v) <= 127)%Z.
Proof.
  clear_params.
  destruct v as [n d]. unfold float_0_995, Qle, Qlt, Qtrunc, Qmult. cbn [Qnum Qden].
  intros H0 H1.
  rewrite Z.quot_div_nonneg by lia.
  split.
  - apply Z.div_pos; lia.
  - apply Z.lt_succ_r. apply Z.div_lt_upper_bound; lia.
Qed.

Lemma draw_busy_done msg v w :
  (float_0_995 <= v)%Q ->
  wp (draw_busy msg (Some v)) None w
     (fun r w' t =>
        r = Ret tt /\ t = [EvDraw DisShow] /\
        busy_text (hsm_ux_obj w') = None /\ percent (hsm_ux_obj w') = None /\
        hsm_active w' = hsm_active w).
Proof.
  intros Hv. apply progress_done in Hv.
  unfold draw_busy, dis. wp_go. repeat split.
Qed.

(** X16: a progress report of 99.5 percent or more ends the busy display:
    whatever text comes with it and whatever was shown before,
    [draw_busy], and so the two hooks [hack_fullscreen] (whose third
    argument [line2] the source ignores) and [hack_progress_bar], forget
    the busy text and the progress value, draw neither text nor bar, and
    only send the picture to the display. *)
Theorem progress_completion_clears msg v w :
  (995 # 1000 <= v)%Q ->
  let done_ := fun (r : result unit) (w' : World) (t : list event) =>
    r = Ret tt /\ t = [EvDraw DisShow] /\
    busy_text (hsm_ux_obj w') = None /\ percent (hsm_ux_obj w') = None in
  wp (draw_busy msg (Some v)) None w done_ /\
  wp (hack_fullscreen msg (Some v)) None w done_ /\
  wp (hack_progress_bar (Some v)) None w done_.
Proof.
  clear_params.
  intros Hv done_. unfold hack_fullscreen, hack_progress_bar, done_.
  apply float_below_decimal in Hv.
  split; [|split]; (eapply wp_conseq; [apply draw_busy_done; exact Hv|]);
    cbv beta; tauto.
Qed.

(** X17: a progress report below the float [0.995] that the code
    compares with, and not negative, is kept and drawn: the progress value
    is stored; the busy text is the text given or, without one, the text
    there was; the text, if there is one, is drawn under a cleared strip
    at line 48; and the bar is drawn in row 63 up to the pixel
    [int(128 * percent)], a column from 0 to 127. *)
Theorem progress_bar_within_display msg v w :
  (0 <= v)%Q -> (v < float_0_995)%Q ->
  wp (draw_busy msg (Some v)) None w
     (fun r w' t =>
        let text := match msg with
                    | Some m => Some m
                    | None => busy_text (hsm_ux_obj w)
                    end in
        let x := Qtrunc (128 * v) in
        r = Ret tt /\
        percent (hsm_ux_obj w') = Some v /\
        busy_text (hsm_ux_obj w') = text /\
        (0 <= x <= 127)%Z /\
        t = match text with
            | Some m => [EvDraw (ClearRect 0 48 128 (64 - 48)); EvDraw (Text None 48 m)]
            | None => []
            end
            ++ [EvDraw (BarLine 0 63 x true); EvDraw (BarLine (x + 1) 63 127 false);
                EvDraw DisShow]).
Proof.
  intros H0 Hv. pose proof (bar_end_on_screen v H0 Hv) as Hx.
  apply progress_going in Hv.
  unfold draw_busy, dis. wp_walk; cbv zeta; rewrite ?app_nil_r; cbn [app];
    repeat match goal with H : ?x = _ |- context [match ?x with _ => _ end] => rewrite H end;
    repeat split; ux_simpl; try first [ reflexivity | congruence | lia ].
Qed.

Lemma draw_busy_text m w :
  wp (draw_busy (Some m) None) None w
     (fun r w' t =>
        r = Ret tt /\ busy_text (hsm_ux_obj w') = Some m /\
        percent (hsm_ux_obj w') = percent (hsm_ux_obj w) /\
        hsm_active w' = hsm_active w /\ In (EvDraw (Text None 48 m)) t).
Proof.
  unfold draw_busy, dis. wp_go; repeat split; cbn [In app]; tauto.
Qed.

(** [show] with an active policy and a working display, with what it keeps
    and what it draws of the busy display. *)
Lemma show_keeps_busy w p :
  hsm_active w = Some p ->
  wp show None w
     (fun r w' t =>
        r = Ret tt /\ hsm_active w' = Some p /\
        busy_text (hsm_ux_obj w') = busy_text (hsm_ux_obj w) /\
        percent (hsm_ux_obj w') = percent (hsm_ux_obj w) /\
        (forall m, busy_text (hsm_ux_obj w) = Some m ->
           In (EvDraw (Text None 48 m)) t) /\
        (busy_text (hsm_ux_obj w) = None ->
           forall m, ~ In (EvDraw (Text None 48 m)) t) /\
        (percent (hsm_ux_obj w) = None ->
           forall x y len c, ~ In (EvDraw (BarLine x y len c)) t)).
Proof.
  intros Hact.
  eapply wp_conseq; [apply wp_and; [apply show_spec | apply (show_screen w p Hact)]|].
  cbv beta.
  intros r w' t [(_ & _ & Ha & _) (Hr & _ & Hb & Hp & Hm & Hn & _ & Hbar)].
  repeat split; try assumption. congruence.
Qed.

(** X18: the life of a busy text. A text given to [hack_fullscreen]
    without a progress value is drawn at once and remembered; the next
    [show] draws it again; a progress report of 99.5 percent or more
    through [hack_progress_bar] forgets it; and the [show] after that
    draws neither a busy text nor a bar. *)
Theorem busy_text_life_cycle m w p :
  hsm_active w = Some p ->
  wp (hack_fullscreen (Some m) None) None w
     (fun r1 w1 t1 =>
        r1 = Ret tt /\ In (EvDraw (Text None 48 m)) t1 /\
        wp show None w1
           (fun r2 w2 t2 =>
              r2 = Ret tt /\ In (EvDraw (Text None 48 m)) t2 /\
              forall v, (995 # 1000 <= v)%Q ->
                wp (hack_progress_bar (Some v)) None w2
                   (fun r3 w3 _ =>
                      r3 = Ret tt /\
                      wp show None w3
                         (fun r4 _ t4 =>
                            r4 = Ret tt /\
                            (forall m', ~ In (EvDraw (Text None 48 m')) t4) /\
                            (forall x y len c,
                               ~ In (EvDraw (BarLine x y len c)) t4))))).
Proof.
  intros Hact. unfold hack_fullscreen, hack_progress_bar.
  eapply wp_conseq; [apply draw_busy_text|]. cbv beta.
  intros r1 w1 t1 (-> & Hb1 & Hp1 & Ha1 & Hin1).
  split; [reflexivity|]. split; [exact Hin1|].
  rewrite Hact in Ha1.
  eapply wp_conseq; [apply (show_keeps_busy w1 p Ha1)|]. cbv beta.
  intros r2 w2 t2 (-> & Ha2 & Hb2 & Hp2 & Hm2 & _ & _).
  split; [reflexivity|]. split; [apply Hm2; exact Hb1|].
  intros v Hv.
  eapply wp_conseq; [apply (draw_busy_done None v w2 (float_below_decimal v Hv))|].
  cbv beta.
  intros r3 w3 t3 (-> & _ & Hb3 & Hp3 & Ha3).
  split; [reflexivity|].
  rewrite Ha2 in Ha3.
  eapply wp_conseq; [apply (show_keeps_busy w3 p Ha3)|]. cbv beta.
  intros r4 w4 t4 (-> & _ & _ & _ & _ & Hn4 & Hbar4).
  split; [reflexivity|]. split; [apply Hn4; exact Hb3 | apply Hbar4; exact Hp3].
Qed.

(** ** Entering the local code *)

Lemma string_app_assoc (s1 s2 s3 : string) : (s1 +:+ s2) +:+ s3 = s1 +:+ (s2 +:+ s3).
Proof.
  induction s1 as [|c s1 IH]; [reflexivity|].
  change (String c ((s1 +:+ s2) +:+ s3) = String c (s1 +:+ (s2 +:+ s3))).
  by rewrite IH.
Qed.

Lemma first_chars_length keys :
  Forall (fun ch => ch <> "") keys -> String.length (first_chars keys) = length keys.
Proof.
  induction 1 as [|ch keys Hch _ IH]; [reflexivity|].
  destruct ch as [|c rest]; [congruence|].
  cbn [first_chars String.length length]. by rewrite IH.
Qed.

Lemma handle_digit_key c rest e w :
  is_digit_key (String c rest) ->
  wp (handle_key (String c rest)) e w
     (fun r w' t =>
        r = Ret tt /\ t = [] /\
        w' = if (String.length (digits (hsm_ux_obj w)) <? LOCAL_PIN_LENGTH)%nat
             then set_hsm_ux_obj
                    (set_digits (digits (hsm_ux_obj w) +:+ String c EmptyString)
                                (hsm_ux_obj w)) w
             else w).
Proof.
  intros (_ & Hx & Hy & Ha). apply String.eqb_neq in Hx, Hy, Ha.
  unfold handle_key. rewrite Hx, Hy, Ha.
  destruct (String.length (digits (hsm_ux_obj w)) <? LOCAL_PIN_LENGTH)%nat eqn:Hlt;
    repeat wp_step; rewrite ?Hlt; repeat wp_step; repeat split.
Qed.

Lemma handle_confirm_key e w p :
  hsm_active w = Some p -> te_pin e = Returns tt ->
  String.length (digits (hsm_ux_obj w)) = LOCAL_PIN_LENGTH ->
  wp (handle_key "y") e w
     (fun r w' t =>
        r = Ret tt /\ t = [EvLocalPin (digits (hsm_ux_obj w))] /\
        w' = set_hsm_ux_obj (set_digits "" (hsm_ux_obj w)) w).
Proof.
  intros Hact Hpin Hlen. apply Nat.eqb_eq in Hlen.
  unfold handle_key. cbn [String.eqb Ascii.eqb Bool.eqb andb].
  repeat wp_step. rewrite Hlen. repeat wp_step. rewrite Hact. repeat wp_step.
  rewrite Hpin. repeat wp_step. repeat split.
Qed.

Lemma filter_draws f t :
  (forall d, f (EvDraw d) = false) ->
  Forall (fun ev => is_draw ev = true) t -> List.filter f t = [].
Proof.
  intros Hf H. apply length_zero_iff_nil. exact (count_draws f t Hf H).
Qed.

(** An iteration that polls a key which is handled without an exception,
    with a working display. *)
Lemma key_iteration e w p ch (Q : result unit -> World -> list event -> Prop) :
  hsm_active w = Some p -> te_draw_fault e = None -> te_poll e = Returns ch ->
  (forall w1 t1,
     hsm_active w1 = Some p ->
     digits (hsm_ux_obj w1) = digits (hsm_ux_obj w) ->
     test_restart (hsm_ux_obj w1) = test_restart (hsm_ux_obj w) ->
     List.filter is_local_pin t1 = [] ->
     wp (handle_key ch) e w1
        (fun r w2 t2 =>
           r = Ret tt /\ Q (Ret tt) w2 (t1 ++ [EvGcCollect; EvPoll] ++ t2))) ->
  wp loop_body e w Q.
Proof.
  intros Hact Hfault Hpoll HQ. unfold loop_body.
  eapply wp_bind_spec; [apply wp_local, show_spec|]. cbv beta.
  intros r w1 t1 (Hh & Har & Hact1 & Hd & Htr & Hdraw & _ & Hret).
  rewrite Hfault in Hret. rewrite (Hret eq_refl ltac:(eauto)).
  rewrite Hact in Hact1.
  pose proof (filter_draws is_local_pin t1 (fun _ => eq_refl) Hdraw) as Hnone.
  specialize (HQ w1 t1 Hact1 Hd Htr Hnone).
  unfold poll_input. wp_step. wp_step. wp_step. wp_step. wp_step. wp_step.
  rewrite Hpoll. wp_step.
  eapply wp_conseq; [exact HQ|]. cbv beta.
  intros r2 w2 t2 [-> H2].
  repeat wp_step. rewrite ?app_nil_r. cbn [app] in *.
  rewrite <- ?app_assoc in *. exact H2.
Qed.

(** The iterations that poll the digit keys, one after the other: the
    buffer takes the first characters of the keys until it is full. *)
Lemma typing_digits p envs keys :
  Forall2 presses envs keys -> Forall is_digit_key keys ->
  forall tail w (Q : result run_status -> World -> list event -> Prop),
    hsm_active w = Some p -> test_restart (hsm_ux_obj w) = false ->
    String.length (digits (hsm_ux_obj w)) <= LOCAL_PIN_LENGTH ->
    (forall w1 t1,
       hsm_active w1 = Some p -> test_restart (hsm_ux_obj w1) = false ->
       digits (hsm_ux_obj w1) =
         digits (hsm_ux_obj w) +:+
         first_chars (take (LOCAL_PIN_LENGTH - String.length (digits (hsm_ux_obj w))) keys) ->
       List.filter is_local_pin t1 = [] ->
       wp (lockdown_loop tail) tt w1 (fun r w2 t2 => Q r w2 (t1 ++ t2))) ->
    wp (lockdown_loop (envs ++ tail)) tt w Q.
Proof.
  induction 1 as [|e ch envs keys Hpress _ IH]; intros Hkeys tail w Q Hact Htr Hlen HQ.
  - cbn [app]. apply (HQ w []); try assumption; [|reflexivity].
    rewrite take_nil. cbn [first_chars]. by rewrite string_app_empty.
  - apply Forall_cons in Hkeys as [Hch Hkeys].
    destruct Hpress as (Hfault & Hpoll & _).
    destruct ch as [|c rest]; [by destruct Hch|].
    cbn [app lockdown_loop]. wp_step. wp_step. rewrite Htr.
    wp_step. wp_step.
    apply (key_iteration e w p (String c rest)); try assumption.
    intros w1 t1 Hact1 Hd1 Htr1 Hnone1.
    eapply wp_conseq; [apply handle_digit_key; exact Hch|]. cbv beta.
    intros r w2 t2 (-> & -> & ->). split; [reflexivity|].
    rewrite Hd1. rewrite Htr in Htr1.
    destruct (Nat.ltb_spec (String.length (digits (hsm_ux_obj w))) LOCAL_PIN_LENGTH)
      as [Hlt | Hge].
    + apply IH; try assumption.
      * ux_simpl. rewrite string_length_append. cbn [String.length]. lia.
      * intros w3 t3 Hact3 Htr3 Hd3 Hnone3. ux_simpl.
        eapply wp_conseq; [apply (HQ w3 ((t1 ++ [EvGcCollect; EvPoll]) ++ t3))|];
          try assumption.
        -- rewrite Hd3. rewrite string_length_append. cbn [String.length].
           replace (LOCAL_PIN_LENGTH - String.length (digits (hsm_ux_obj w)))
             with (S (LOCAL_PIN_LENGTH - (String.length (digits (hsm_ux_obj w)) + 1)))
             by lia.
           cbn [take first_chars]. rewrite string_app_assoc. reflexivity.
        -- rewrite !List.filter_app, Hnone1, Hnone3. reflexivity.
        -- cbv beta. intros r4 w4 t4 H4. rewrite ?app_nil_r.
           rewrite <- ?app_assoc in *. cbn [app] in *. exact H4.
    + apply IH; try assumption.
      * rewrite Hd1. lia.
      * intros w3 t3 Hact3 Htr3 Hd3 Hnone3.
        eapply wp_conseq; [apply (HQ w3 ((t1 ++ [EvGcCollect; EvPoll]) ++ t3))|];
          try assumption.
        -- rewrite Hd3, Hd1.
           replace (LOCAL_PIN_LENGTH - String.length (digits (hsm_ux_obj w))) with 0
             by lia.
           rewrite !take_0. reflexivity.
        -- rewrite !List.filter_app, Hnone1, Hnone3. reflexivity.
        -- cbv beta. intros r4 w4 t4 H4. rewrite ?app_nil_r.
           rewrite <- ?app_assoc in *. cbn [app] in *. exact H4.
Qed.

(** X19: entering the local code. In a run of [interact] with an active
    policy and a working display, after any number of digit keys, at least
    [LOCAL_PIN_LENGTH] of them, the confirm key calls [local_pin_entered]
    once, with the first characters of the first [LOCAL_PIN_LENGTH] keys
    in the order they were pressed: digits entered before the run and
    digits beyond the length are dropped; after the call the buffer is
    empty, and no other call of [local_pin_entered] is made. *)
Theorem local_code_round_trip envs keys e_ok w p :
  hsm_active w = Some p ->
  Forall2 presses envs keys -> Forall is_digit_key keys ->
  LOCAL_PIN_LENGTH <= length keys -> presses e_ok "y" ->
  wp (hsmUxInteraction_interact (envs ++ [e_ok])) tt w
     (fun r w' t =>
        r = Ret StillLooping /\ digits (hsm_ux_obj w') = "" /\
        List.filter is_local_pin t =
          [EvLocalPin (first_chars (take LOCAL_PIN_LENGTH keys))] /\
        String.length (first_chars (take LOCAL_PIN_LENGTH keys)) = LOCAL_PIN_LENGTH).
Proof.
  intros Hact Henvs Hkeys Hlen (Hfault & Hpoll & Hpin).
  assert (String.length (first_chars (take LOCAL_PIN_LENGTH keys)) = LOCAL_PIN_LENGTH)
    as Hcode.
  { rewrite first_chars_length.
    - rewrite length_take. lia.
    - apply Forall_take. revert Hkeys. apply List.Forall_impl. by intros ch [? _]. }
  unfold hsmUxInteraction_interact.
  wp_step. wp_step. eapply wp_bind_spec; [apply draw_background_spec|].
  cbv beta. intros r0 w0 t0 (-> & -> & Hbg).
  pose proof (Hbg is_local_pin (fun _ => eq_refl) (fun _ => eq_refl)) as Hbg0.
  apply length_zero_iff_nil in Hbg0.
  wp_step. wp_step. wp_step. wp_step. wp_step.
  apply (typing_digits p envs keys Henvs Hkeys); ux_simpl; try assumption.
  { reflexivity. }
  { cbn [String.length]. lia. }
  intros w1 t1 Hact1 Htr1 Hd1 Hnone1.
  cbn [String.length String.append] in Hd1. rewrite Nat.sub_0_r in Hd1.
  cbn [lockdown_loop]. wp_step. wp_step. rewrite Htr1. wp_step. wp_step.
  apply (key_iteration e_ok w1 p "y"); try assumption.
  intros w2 t2 Hact2 Hd2 Htr2 Hnone2.
  eapply wp_conseq; [apply (handle_confirm_key e_ok w2 p)|]; try assumption.
  { rewrite Hd2, Hd1. exact Hcode. }
  cbv beta. intros r w3 t3 (-> & -> & ->). split; [reflexivity|].
  repeat wp_step. rewrite Htr2, Htr1. repeat wp_step.
  split; [reflexivity|]. split; [reflexivity|]. split; [|exact Hcode].
  rewrite ?app_nil_r. cbn [app List.filter is_local_pin].
  rewrite !List.filter_app, Hbg0, Hnone1, Hnone2. cbn [app List.filter is_local_pin].
  rewrite Hd2, Hd1. reflexivity.
Qed.

(** ** What an iteration calls, and what ends the loop *)

Ltac calls_leaf :=
  unfold idle in *; repeat match goal with u : unit |- _ => destruct u end;
  repeat match goal with
    | |- _ /\ _ => split
    | |- _ -> _ => intros ?
    | |- forall _, _ => intros ?
    end;
  world_eqs;
  try (count_solve; cbn [is_sleep is_gc Nat.add]);
  clash;
  try first [ reflexivity | discriminate | congruence | lia ];
  try match goal with
      | H : forall x, Raise ?x0 = Raise x -> _ |- _ =>
          destruct (H _ eq_refl) as [[? ?] | (? & ? & ?)]; [discriminate|]
      end;
  try match goal with
      | H : None = None -> is_Some _ -> Raise _ = Ret tt |- _ =>
          specialize (H eq_refl ltac:(eauto)); discriminate H
      end;
  try first [ reflexivity | discriminate | congruence | lia ].

(** X20: what one iteration calls. With an active policy and a working
    display every iteration collects garbage once and polls the keypad
    once; it sleeps, for 100 ms, exactly when the queue was empty, and not
    at all when a key was found (unless [local_pin_entered] itself raises
    [QueueEmpty]); and an exception of that sleep is not caught: it ends
    the iteration. *)
Theorem iteration_sleeps_on_empty_queue e w p :
  hsm_active w = Some p -> te_draw_fault e = None ->
  wp loop_body e w
     (fun r _ t =>
        count_events is_gc t = 1 /\ count_events is_poll t = 1 /\
        (te_poll e = Throws QueueEmpty ->
           count_events is_sleep t = 1 /\ In (EvSleep 100) t) /\
        (te_poll e <> Throws QueueEmpty -> te_pin e <> Throws QueueEmpty ->
           count_events is_sleep t = 0 /\ r = Ret tt) /\
        (te_poll e = Throws QueueEmpty ->
           forall x, te_sleep e = Throws x -> r = Raise (External x))).
Proof.
  intros Hact Hfault.
  unfold loop_body, poll_input, service_request.
  wp_walk_with ltac:(wp_run_all); calls_leaf.
  all: rewrite ?in_app_iff; cbn [In]; tauto.
Qed.

Lemma lockdown_loop_leaves rest w :
  test_restart (hsm_ux_obj w) = true ->
  wp (lockdown_loop rest) tt w (fun r w' t => r = Ret LoopLeft /\ w' = w /\ t = []).
Proof.
  intros Htr. destruct rest; cbn [lockdown_loop]; wp_go; repeat split.
Qed.

(** X21: a failure of the pending action ends the loop. When the queue is
    empty and the action in the slot is not done, the iteration steps it;
    if its first story is answered with anything but the confirm key and
    its [done()] then raises something other than [AbortInteraction], the
    exception leaves the iteration, with the action refused and done and
    [main.hsm_active] still set. *)
Theorem pending_failure_escapes e w p r a text ch y :
  hsm_active w = Some p -> te_draw_fault e = None ->
  te_poll e = Throws QueueEmpty -> te_sleep e = Returns tt ->
  active_request w = Some r -> heap w !! r = Some a -> ux_done a = false ->
  explain (policy a) = Returns text ->
  ae_story1 (te_request e) = Returns ch -> ch <> "y" ->
  ae_done (te_request e) = Throws y -> y <> AbortInteraction ->
  wp loop_body e w
     (fun res w' t =>
        res = Raise (External y) /\ hsm_active w' = Some p /\
        terminal_refused r w' /\ count_events is_interact t = 1).
Proof.
  intros Hact Hfault Hpoll Hsleep Hreq Ha Hdone Hex Hs1 Hch Hd Hy.
  apply String.eqb_neq in Hch.
  unfold loop_body.
  eapply wp_bind_spec; [apply wp_local, show_spec|]. cbv beta.
  intros r0 w1 t1 (Hh & Har & Hact1 & _ & _ & Hdraw & _ & Hret).
  rewrite Hfault in Hret. rewrite (Hret eq_refl ltac:(eauto)).
  rewrite Hact in Hact1. rewrite Hreq in Har.
  assert (heap w1 !! r = Some a) as Ha1 by (rewrite Hh; exact Ha).
  pose proof (count_draws is_interact t1 (fun _ => eq_refl) Hdraw) as Hnone.
  clear Hh Hret Hdraw Ha Hreq Hact.
  unfold poll_input, service_request. unfold_approval.
  wp_walk; unfold terminal_refused; store_simpl;
    (split; [destruct y; congruence|]); (split; [assumption|]);
    (split; [eexists; split; [solve_lookup|]; obj_simpl; split; reflexivity|]);
    rewrite ?app_nil_r; cbn [app];
    rewrite !count_events_app, Hnone; reflexivity.
Qed.

(** X22: the way out on the simulator. In a run of [interact] with an
    active policy, a working display and no step of an action due, when
    another task sets [test_restart] during the sleep of the first
    iteration the loop is left after that iteration, however many inputs
    wait: on the simulator [main.hsm_active] is cleared and the run ends
    with [numpad.start()] and [goto_top_menu()]; elsewhere the assertion
    fails, with [main.hsm_active] still set and no [goto_top_menu()]. *)
Theorem restart_leaves_the_loop e rest w p :
  hsm_active w = Some p -> idle w ->
  te_draw_fault e = None -> te_poll e = Throws QueueEmpty ->
  te_sleep e = Returns tt -> te_restart e = true ->
  wp (hsmUxInteraction_interact (e :: rest)) tt w
     (fun r w' t =>
        count_events is_poll t = 1 /\
        if is_simulator then
          r = Ret LoopLeft /\ hsm_active w' = None /\
          exists t0, t = t0 ++ [EvNumpadStart; EvGotoTopMenu]
        else
          r = Raise AssertionError /\ hsm_active w' = Some p /\
          count_events is_goto_top t = 0).
Proof.
  intros Hact Hidle Hfault Hpoll Hsleep Hrst.
  unfold hsmUxInteraction_interact.
  wp_step. wp_step. eapply wp_bind_spec; [apply draw_background_spec|].
  cbv beta. intros r0 w0 t0 (-> & -> & Hbg).
  pose proof (Hbg is_poll (fun _ => eq_refl) (fun _ => eq_refl)) as Hbgp.
  pose proof (Hbg is_goto_top (fun _ => eq_refl) (fun _ => eq_refl)) as Hbgg.
  clear Hbg.
  wp_step. wp_step. wp_step. wp_step. wp_step.
  cbn [lockdown_loop]. wp_step. wp_step. ux_simpl. wp_step. wp_step.
  unfold loop_body.
  eapply wp_bind_spec; [apply wp_local, show_spec|]. cbv beta. store_simpl.
  intros r1 w1 t1 (Hh & Har & Hact1 & _ & _ & Hdraw & _ & Hret).
  rewrite Hfault in Hret. rewrite (Hret eq_refl ltac:(eauto)).
  rewrite Hact in Hact1.
  assert (idle w1) as Hidle1.
  { unfold idle in *. rewrite Har, Hh. exact Hidle. }
  pose proof (count_draws is_poll t1 (fun _ => eq_refl) Hdraw) as Hp1.
  pose proof (count_draws is_goto_top t1 (fun _ => eq_refl) Hdraw) as Hg1.
  clear Hh Har Hret Hdraw Hidle.
  unfold idle in Hidle1.
  destruct (active_request w1) as [r|] eqn:Hreq1;
    [destruct Hidle1 as (a & Ha & Hdn)|].
  all: unfold poll_input, service_request.
  all: wp_walk_with ltac:(repeat first [ wp_step | progress use_facts ]).
  all: (eapply wp_conseq; [apply lockdown_loop_leaves; reflexivity|]).
  all: cbv beta; intros r2 w2 t2 (-> & -> & ->).
  all: destruct is_simulator; wp_go; store_simpl; rewrite ?app_nil_r; cbn [app].
  all: rewrite ?count_events_cons, ?count_events_app, ?Hbgp, ?Hbgg, ?Hp1, ?Hg1.
  all: cbn [is_poll is_goto_top count_events List.filter length Nat.add].
  all: repeat split; try assumption; try reflexivity.
  all: exists (EvInstallHooks :: t0 ++ t1 ++ [EvGcCollect; EvPoll; EvSleep 100]).
  all: cbn [app]; rewrite <- !app_assoc; reflexivity.
Qed.

(** ** The statistics and the end of the approval *)

Lemma centred_half centre val :
  centred centre (centre - (7 * Z.of_nat (String.length val)) / 2) val.
Proof.
  clear_params. unfold centred.
  pose proof (Z.div_mod (7 * Z.of_nat (String.length val)) 2 ltac:(lia)) as Hdm.
  pose proof (Z.mod_pos_bound (7 * Z.of_nat (String.length val)) 2 ltac:(lia)) as Hb.
  lia.
Qed.

(** X23: the row of the statistics. [show] with an active policy and a
    working display writes three texts into row 29: the number of
    approvals around column 14, the number of refusals around column 51,
    and the time left around column 96, each centred for characters seven
    pixels wide; the time left reads " n/a" when the policy has no period,
    " --" when the period has not begun (-1), and otherwise what
    [pretty_short_delay] makes of the seconds. *)
Theorem show_statistics_row w p :
  hsm_active w = Some p ->
  wp show None w
     (fun _ _ t =>
        exists x1 x2 x3 left,
          omap stat_text t =
            [(x1, str_nat (approvals p)); (x2, str_nat (refusals p)); (x3, left)] /\
          centred 14 x1 (str_nat (approvals p)) /\
          centred 51 x2 (str_nat (refusals p)) /\
          centred 96 x3 left /\
          (time_left p = None -> left = " n/a") /\
          (time_left p = Some (-1)%Z -> left = " --") /\
          (forall s, time_left p = Some s -> s <> (-1)%Z ->
             left = pretty_short_delay s)).
Proof.
  intros Hact.
  destruct (cylon_in_range (phase (hsm_ux_obj w) + 1)) as [x Hx].
  unfold_show. wp_walk; rewrite ?app_nil_r; cbn [app].
  all: do 4 eexists; split; [reflexivity|].
  all: split; [apply centred_half|]; split; [apply centred_half|];
    split; [apply centred_half|].
  all: split; [intros Hn | split; [intros Hn | intros secs Hn Hne]];
    rewrite Hn; try reflexivity.
  all: apply Z.eqb_neq in Hne; by rewrite Hne.
Qed.

Ltac prefix_before_cleanup t :=
  lazymatch t with
  | EvCleanup :: _ => constr:(@nil event)
  | ?ev :: ?rest => let p := prefix_before_cleanup rest in constr:(ev :: p)
  end.

(** X24: how a run of the action closes. [UserAuthorizedAction.cleanup()]
    is called once, after the presentation and directly before the last
    call; a refused run ends with [self.done()], an approved one with
    [policy.activate(new_file)] and then, only if that returns,
    [the_ux.reset(hsm_ux_obj)], which is therefore called exactly when the
    policy has been activated. *)
Theorem approval_closing_calls self a e w :
  heap w !! self = Some a ->
  wp (ApproveHSMPolicy_interact self) e w
     (fun r w' t =>
        exists presentation,
          count_events is_cleanup presentation = 0 /\
          count_events is_ux_reset presentation = 0 /\
          ((terminal_refused self w' /\
            t = presentation ++ [EvCleanup; EvDone self]) \/
           (terminal_approved self w' /\ ae_activate e = Returns tt /\ r = Ret tt /\
            t = presentation ++
                [EvCleanup; EvActivate (policy a) (new_file a); EvUxReset]) \/
           (terminal_approved self w' /\ (exists y, ae_activate e = Throws y) /\
            t = presentation ++ [EvCleanup; EvActivate (policy a) (new_file a)]))).
Proof.
  intros Ha. unfold_approval.
  wp_walk; rewrite ?app_nil_r; cbn [app].
  all: match goal with
       | |- exists pres, _ /\ _ /\ ((_ /\ ?t = _) \/ _) =>
           let p := prefix_before_cleanup t in exists p
       end.
  all: (split; [reflexivity|]); (split; [reflexivity|]).
  all: first
         [ left; (split; [|reflexivity]);
           (erewrite terminal_refused_at by solve_lookup); obj_simpl;
           split; reflexivity
         | right; left; (split; [|split; [|split; reflexivity]]);
           [ (erewrite terminal_approved_at by solve_lookup); obj_simpl;
             split; reflexivity
           | repeat match goal with u : unit |- _ => destruct u end;
             first [assumption | reflexivity] ]
         | right; right; (split; [|split; [eauto|reflexivity]]);
           (erewrite terminal_approved_at by solve_lookup); obj_simpl;
           split; reflexivity ].
Qed.

End Firmware.

(** ** The statements at sample inputs *)

Lemma second_confirmation_exact_token_witness :
  heap (demo_world true) !! 0 = Some (mk_request (mk_policy "policy") true) /\
  4 < 5 /\
  exists c,
    String.get 4 confirm_alphabet = Some c /\
    wp (ApproveHSMPolicy_interact 0) (demo_env (Returns "y") 4 (Returns "6"))
       (demo_world true)
       (fun _ w' t =>
          count_events is_random t = 1 /\
          confirmation_tokens t = [String c EmptyString] /\
          (terminal_approved 0 w' <->
             Returns "6" = Returns (String c EmptyString)) /\
          (terminal_refused 0 w' <->
             Returns "6" <> Returns (String c EmptyString)) /\
          (Returns "6" = Returns (String c EmptyString) ->
             count_events is_activate t = 1 /\
             In (EvActivate (mk_policy "policy") true) t) /\
          (Returns "6" <> Returns (String c EmptyString) ->
             count_events is_activate t = 0 /\
             hsm_active w' = hsm_active (demo_world true))).
Proof.
  split; [reflexivity|]. split; [lia|].
  apply (second_confirmation_exact_token 0 (mk_request (mk_policy "policy") true)
           (demo_env (Returns "y") 4 (Returns "6")) (demo_world true) "policy" 4);
    [reflexivity | reflexivity | reflexivity | reflexivity | reflexivity | lia].
Defined.

Lemma approval_fails_closed_witness :
  first_gesture_rejects (mk_request (mk_policy "policy") true)
    (demo_env (Returns "x") 0 (Returns "1")) /\
  wp (ApproveHSMPolicy_interact 0) (demo_env (Returns "x") 0 (Returns "1"))
     (demo_world true)
     (fun _ w' t =>
        terminal_refused 0 w' /\ count_events is_activate t = 0 /\
        hsm_active w' = hsm_active (demo_world true) /\
        forall x,
          presentation_raises 0 (demo_env (Returns "x") 0 (Returns "1"))
            (demo_world true) x ->
          exists a', heap w' !! 0 = Some a' /\ failed a' = Some "Exception" /\
                     In (EvPrintException x) t).
Proof.
  assert (first_gesture_rejects (mk_request (mk_policy "policy") true)
            (demo_env (Returns "x") 0 (Returns "1"))) as Hrej.
  { exists "policy", "x". repeat split. discriminate. }
  split; [exact Hrej|].
  apply (approval_fails_closed 0 (mk_request (mk_policy "policy") true)
           (demo_env (Returns "x") 0 (Returns "1")) (demo_world true));
    [reflexivity | left; exact Hrej].
Defined.

Lemma pending_step_follows_empty_poll_witness :
  hsm_active (demo_active_world "12" (Some 0) false) = Some (mk_policy "active") /\
  te_draw_fault (demo_tick None (Throws QueueEmpty)) = None /\
  active_request (demo_active_world "12" (Some 0) false) = Some 0 /\
  wp (loop_body 6 demo_abort_key demo_pretty) (demo_tick None (Throws QueueEmpty))
     (demo_active_world "12" (Some 0) false)
     (fun res _ t =>
        (te_poll (demo_tick None (Throws QueueEmpty)) = Throws QueueEmpty ->
         te_sleep (demo_tick None (Throws QueueEmpty)) = Returns tt ->
           polls_and_steps t = [EvPoll; EvInteract 0]) /\
        (forall ch, te_poll (demo_tick None (Throws QueueEmpty)) = Returns ch ->
           te_pin (demo_tick None (Throws QueueEmpty)) <> Throws QueueEmpty ->
           res = Ret tt /\ polls_and_steps t = [EvPoll]) /\
        (forall x, te_poll (demo_tick None (Throws QueueEmpty)) = Throws x ->
           x <> QueueEmpty ->
           res = Ret tt /\ polls_and_steps t = [EvPoll])).
Proof.
  split; [reflexivity|]. split; [reflexivity|]. split; [reflexivity|].
  apply (pending_step_follows_empty_poll 6 demo_abort_key demo_pretty
           (demo_tick None (Throws QueueEmpty))
           (demo_active_world "12" (Some 0) false)
           (mk_policy "active") 0
           (set_ux_done false (mk_request (mk_policy "policy") false)));
    reflexivity.
Defined.

Lemma lockdown_is_one_way_witness :
  demo_abort_key <> "x" /\ demo_abort_key <> "y" /\
  wp (handle_key 6 demo_abort_key demo_abort_key)
     (demo_tick None (Returns demo_abort_key))
     (demo_active_world "12" None false)
     (fun r w' t => r = Ret tt /\ w' = demo_active_world "12" None false /\ t = []) /\
  wp (hsmUxInteraction_interact 6 demo_abort_key false demo_pretty demo_text_end
        [demo_tick None (Returns demo_abort_key)])
     tt (demo_active_world "12" None false)
     (fun r w' t =>
        count_events is_goto_top t <= 1 /\
        (count_events is_goto_top t = 1 \/ r = Ret LoopLeft ->
           false = true /\
           exists e, In e [demo_tick None (Returns demo_abort_key)] /\
                     te_restart e = true) /\
        (count_events is_goto_top t = 0 ->
           r <> Ret LoopLeft /\
           (is_Some (hsm_active (demo_active_world "12" None false)) ->
            is_Some (hsm_active w')))).
Proof.
  assert (demo_abort_key <> "x") as Hx by discriminate.
  assert (demo_abort_key <> "y") as Hy by discriminate.
  split; [exact Hx|]. split; [exact Hy|].
  destruct (lockdown_is_one_way 6 demo_abort_key false demo_pretty demo_text_end
              Hx Hy) as (Hkey & _ & Hrun).
  split; [apply Hkey | apply Hrun].
Defined.

Lemma digit_buffer_bounded_witness :
  wp (hsmUxInteraction_interact 6 demo_abort_key false demo_pretty demo_text_end
        [demo_tick None (Returns "1"); demo_tick None (Returns "y")])
     tt (demo_active_world "123456789" None false)
     (fun _ w' _ => String.length (digits (hsm_ux_obj w')) <= 6).
Proof.
  apply (proj1 (digit_buffer_bounded 6 demo_abort_key false demo_pretty demo_text_end)).
Defined.

Lemma loader_outcomes_witness :
  wp (start_hsm_approval "hsm-policy.json" demo_problem string demo_loads
        demo_policy_load 0 false false)
     (demo_load (Throws (Foreign "no transfer")) (Throws (Foreign "ENOENT")))
     (demo_world true)
     (fun r _ _ => r = Raise (ValueError "No existing policy")).
Proof.
  eapply wp_conseq.
  - apply (loader_outcomes "hsm-policy.json" demo_problem string demo_loads
             demo_policy_load 0 false false
             (demo_load (Throws (Foreign "no transfer")) (Throws (Foreign "ENOENT")))
             (demo_world true)).
  - intros r w' t (Hno & _). apply Hno. split; [reflexivity|]. eexists. reflexivity.
Defined.

Lemma persisted_policy_single_gesture_witness :
  heap (demo_world false) !! 0 = Some (mk_request (mk_policy "policy") false) /\
  wp (ApproveHSMPolicy_interact 0) (demo_env (Returns "y") 0 (Returns "1"))
     (demo_world false)
     (fun r w' t =>
        r = Ret tt /\ terminal_approved 0 w' /\
        t = [EvExplain (mk_policy "policy");
             EvStory ("policy" +:+ LF +:+ LF +:+ "Press OK to enable HSM mode.")
                     (Some title) None false;
             EvCleanup; EvActivate (mk_policy "policy") false; EvUxReset] /\
        hsm_active w' = Some (mk_policy "policy") /\
        forall envs slot, slot = None \/ slot = Some 0 ->
          wp (hsmUxInteraction_interact 6 demo_abort_key false demo_pretty
                demo_text_end envs)
             tt (set_active_request slot w')
             (fun _ _ t' =>
                count_events is_activate t' = 0 /\
                count_events is_interact t' = 0)).
Proof.
  split; [reflexivity|].
  apply (persisted_policy_single_gesture 6 demo_abort_key false demo_pretty
           demo_text_end 0 (mk_request (mk_policy "policy") false)
           (demo_env (Returns "y") 0 (Returns "1")) (demo_world false) "policy");
    reflexivity.
Defined.

Lemma poll_failures_are_contained_witness :
  hsm_active (demo_active_world "12" None false) = Some (mk_policy "active") /\
  te_draw_fault (demo_tick None (Throws (Foreign "numpad"))) = None /\
  wp (loop_body 6 demo_abort_key demo_pretty)
     (demo_tick None (Throws (Foreign "numpad")))
     (demo_active_world "12" None false)
     (fun res _ t =>
        res = Ret tt /\ In (EvPrintException (External (Foreign "numpad"))) t) /\
  (DigitsStage = DigitsStage ->
     digits (hsm_ux_obj (demo_active_world "12" None false)) <> "") /\
  wp (lockdown_loop 6 demo_abort_key demo_pretty
        [demo_tick (Some DigitsStage) (Returns "1")])
     tt (demo_active_world "12" None false)
     (fun res w' t =>
        res = Raise (External (Foreign "display")) /\
        hsm_active w' = Some (mk_policy "active") /\ count_events is_poll t = 0).
Proof.
  split; [reflexivity|]. split; [reflexivity|].
  assert (DigitsStage = DigitsStage ->
          digits (hsm_ux_obj (demo_active_world "12" None false)) <> "") as Hdig
    by (intros _; discriminate).
  split; [|split; [exact Hdig|]].
  - eapply wp_conseq.
    + apply (proj1 (proj2 (poll_failures_are_contained 6 demo_abort_key demo_pretty))
               (demo_tick None (Throws (Foreign "numpad")))
               (demo_active_world "12" None false) (mk_policy "active"));
        reflexivity.
    + intros res w' t (_ & Hpoll). apply (Hpoll (Foreign "numpad")).
      * reflexivity.
      * discriminate.
  - apply (proj2 (proj2 (proj2
             (poll_failures_are_contained 6 demo_abort_key demo_pretty)))
             (demo_tick (Some DigitsStage) (Returns "1")) []
             (demo_active_world "12" None false) (mk_policy "active") DigitsStage
             eq_refl eq_refl Hdig eq_refl).
Defined.

Lemma heartbeat_advances_and_is_cosmetic_witness :
  is_Some (hsm_active (demo_active_world "" None false)) /\
  wp (show demo_pretty) None (demo_active_world "" None false)
     (fun r w' _ =>
        r = Ret tt /\
        phase (hsm_ux_obj w') =
          (phase (hsm_ux_obj (demo_active_world "" None false)) + 1) mod length cylon).
Proof.
  assert (is_Some (hsm_active (demo_active_world "" None false))) as Hact
    by (eexists; reflexivity).
  split; [exact Hact|].
  apply (proj1 (proj2 (proj2
           (heartbeat_advances_and_is_cosmetic 6 demo_abort_key demo_pretty)))
           (demo_active_world "" None false) Hact).
Defined.

Lemma confirmation_token_alphabet_witness :
  heap (demo_world true) !! 0 = Some (mk_request (mk_policy "policy") true) /\
  wp (ApproveHSMPolicy_interact 0) (demo_env (Returns "y") 2 (Returns "3"))
     (demo_world true)
     (fun _ _ t =>
        forall tok, In tok (confirmation_tokens t) ->
          In tok token_alphabet /\ ~ In tok ["0"; "5"; "7"; "8"; "9"]).
Proof.
  split; [reflexivity|].
  apply (proj1 (confirmation_token_alphabet 0 (mk_request (mk_policy "policy") true)
                  (demo_env (Returns "y") 2 (Returns "3")) (demo_world true)
                  eq_refl)).
Defined.

(** ** Where the loop differs from the two statements *)

(** C3 as stated fails: with a key in the queue the iteration handles the
    key and goes on to the next screen update; the pending action, though
    due, is not stepped. *)
Lemma key_iteration_skips_pending :
  ~ pending_served_every_iteration 6 demo_abort_key demo_pretty.
Proof.
  intros H.
  specialize (H (demo_tick None (Returns "1"))
                (demo_active_world "12" (Some 0) false)
                (mk_policy "active") 0
                (set_ux_done false (mk_request (mk_policy "policy") false))
                eq_refl eq_refl eq_refl eq_refl eq_refl eq_refl).
  unfold wp in H. vm_compute in H. discriminate H.
Qed.

(** C8 as stated fails: a drawing primitive that raises while [show]
    renders the statistics ends the iteration and the loop. *)
Lemma drawing_error_ends_loop :
  ~ loop_never_raises 6 demo_abort_key demo_pretty.
Proof.
  intros H.
  specialize (H [demo_tick (Some StatsStage) (Throws QueueEmpty)]
                (demo_active_world "" None false)
                (ex_intro _ (mk_policy "active") eq_refl)).
  unfold wp in H. vm_compute in H. destruct H as [st H]. discriminate H.
Qed.

(** ** The further properties at sample inputs *)

Lemma approval_always_concludes_witness :
  heap (demo_world true) !! 0 = Some (mk_request (mk_policy "policy") true) /\
  wp (ApproveHSMPolicy_interact 0) (demo_env (Returns "y") 1 (Returns "2"))
     (demo_world true)
     (fun r w' t =>
        exists a',
          heap w' !! 0 = Some a' /\ ux_done a' = true /\
          policy a' = mk_policy "policy" /\ new_file a' = true /\
          (refused a' = true ->
             count_events is_done t = 1 /\ In (EvDone 0) t /\
             count_events is_activate t = 0 /\
             hsm_active w' = hsm_active (demo_world true) /\
             (r = Ret tt <-> Returns tt = Returns tt)) /\
          (refused a' = false ->
             count_events is_done t = 0 /\
             count_events is_activate t = 1 /\
             In (EvActivate (mk_policy "policy") true) t /\
             (r = Ret tt <-> Returns tt = Returns tt)) /\
          (forall x, r = Raise x ->
             exists y, x = External y /\
                       (Returns tt = Throws y \/ Returns tt = Throws y))).
Proof.
  split; [reflexivity|].
  apply (approval_always_concludes 0 (mk_request (mk_policy "policy") true)
           (demo_env (Returns "y") 1 (Returns "2")) (demo_world true)).
  reflexivity.
Defined.

Lemma loader_error_text_witness :
  read_text 0 (demo_load (Throws (Foreign "no transfer")) (Returns "not json"))
    "not json" /\
  wp (start_hsm_approval "hsm-policy.json" demo_problem string demo_loads
        demo_policy_load 0 true false)
     (demo_load (Throws (Foreign "no transfer")) (Returns "not json"))
     (demo_world true)
     (fun r _ t =>
        r = Raise (ValueError
                     (policy_invalid demo_problem (ValueError "JSON parse fail"))) /\
        count_events is_story t = 0).
Proof.
  assert (read_text 0 (demo_load (Throws (Foreign "no transfer")) (Returns "not json"))
            "not json") as Hread by (right; split; reflexivity).
  split; [exact Hread|].
  eapply wp_conseq.
  - apply (loader_error_text "hsm-policy.json" demo_problem string demo_loads
             demo_policy_load 0 true false
             (demo_load (Throws (Foreign "no transfer")) (Returns "not json"))
             (demo_world true) "not json" Hread).
  - intros r w' t H.
    destruct (H (ValueError "JSON parse fail")) as (Hr & Hs & _).
    + left. split; [|reflexivity]. eexists. reflexivity.
    + split; assumption.
Defined.

Lemma approval_requires_gestures_witness :
  heap (demo_world true) !! 0 = Some (mk_request (mk_policy "policy") true) /\
  wp (ApproveHSMPolicy_interact 0) (demo_env (Returns "y") 3 (Returns "4"))
     (demo_world true)
     (fun _ w' t =>
        (terminal_approved 0 w' \/ terminal_refused 0 w') /\
        (terminal_approved 0 w' ->
           Returns "y" = Returns "y" /\
           (true = true ->
              exists tok, In tok token_alphabet /\
                          Returns "4" = Returns tok /\
                          confirmation_tokens t = [tok]) /\
           (true = false ->
              count_events is_story t = 1 /\ count_events is_random t = 0)) /\
        (terminal_refused 0 w' ->
           hsm_active w' = hsm_active (demo_world true) /\
           count_events is_activate t = 0)).
Proof.
  split; [reflexivity|].
  apply (approval_requires_gestures 0 (mk_request (mk_policy "policy") true)
           (demo_env (Returns "y") 3 (Returns "4")) (demo_world true)).
  reflexivity.
Defined.

Lemma show_digit_feedback_witness :
  hsm_active (demo_active_world "12" None false) = Some (mk_policy "active") /\
  wp (show demo_pretty) None (demo_active_world "12" None false)
     (fun r _ t =>
        r = Ret tt /\
        exists msg, omap digit_feedback t = [msg] /\ msg = "12####") /\
  wp (draw_background demo_text_end) tt (demo_active_world "12" None false)
     (fun _ _ t => omap digit_feedback t = ["######"]).
Proof.
  split; [reflexivity|].
  destruct (show_digit_feedback demo_pretty demo_text_end
              (demo_active_world "12" None false) (mk_policy "active") eq_refl)
    as [Hshow Hbg].
  split; [|exact Hbg].
  eapply wp_conseq; [exact Hshow|]. cbv beta zeta.
  intros r w' t (Hr & _ & Hd). split; [exact Hr|].
  destruct Hd as (_ & msg & Hm & Heq & _); [discriminate|].
  exists msg. split; [exact Hm|exact Heq].
Defined.

Lemma show_refreshes_once_witness :
  hsm_active (demo_active_world "" None false) = Some (mk_policy "active") /\
  wp (show demo_pretty) None (demo_active_world "" None false)
     (fun r _ t =>
        r = Ret tt /\
        exists t', t = EvDraw RestoreBackground :: t' ++ [EvDraw DisShow] /\
                   count_events is_refresh t' = 0 /\
                   count_events is_restore t' = 0).
Proof.
  split; [reflexivity|].
  eapply wp_conseq.
  - apply (show_refreshes_once demo_pretty (demo_active_world "" None false)
             (mk_policy "active") eq_refl).
  - cbv beta. intros r w' t (Hr & Ht & _). split; assumption.
Defined.

Lemma progress_completion_clears_witness :
  (995 # 1000 <= 1)%Q /\
  wp (hack_progress_bar (Some 1%Q)) None (demo_active_world "" None false)
     (fun r w' t =>
        r = Ret tt /\ t = [EvDraw DisShow] /\
        busy_text (hsm_ux_obj w') = None /\ percent (hsm_ux_obj w') = None).
Proof.
  assert (995 # 1000 <= 1)%Q as Hv by (unfold Qle; cbn; lia).
  split; [exact Hv|].
  exact (proj2 (proj2 (progress_completion_clears None 1%Q
                         (demo_active_world "" None false) Hv))).
Defined.

Lemma progress_bar_within_display_witness :
  (0 <= 1 # 2)%Q /\ (1 # 2 < float_0_995)%Q /\
  wp (draw_busy (Some "Wait") (Some (1 # 2))) None (demo_active_world "" None false)
     (fun r w' t =>
        r = Ret tt /\ percent (hsm_ux_obj w') = Some (1 # 2) /\
        busy_text (hsm_ux_obj w') = Some "Wait" /\
        (0 <= Qtrunc (128 * (1 # 2)) <= 127)%Z).
Proof.
  assert (0 <= 1 # 2)%Q as H0 by (unfold Qle; cbn; lia).
  assert (1 # 2 < float_0_995)%Q as H1 by (unfold float_0_995, Qlt; cbn; lia).
  split; [exact H0|]. split; [exact H1|].
  eapply wp_conseq.
  - apply (progress_bar_within_display (Some "Wait") (1 # 2)
             (demo_active_world "" None false) H0 H1).
  - cbv beta zeta. intros r w' t (Hr & Hp & Hb & Hx & _). repeat split; tauto.
Defined.

Lemma busy_text_life_cycle_witness :
  hsm_active (demo_active_world "" None false) = Some (mk_policy "active") /\
  wp (hack_fullscreen (Some "Wait") None) None (demo_active_world "" None false)
     (fun r1 w1 t1 =>
        r1 = Ret tt /\ In (EvDraw (Text None 48 "Wait")) t1 /\
        wp (show demo_pretty) None w1
           (fun r2 _ t2 => r2 = Ret tt /\ In (EvDraw (Text None 48 "Wait")) t2)).
Proof.
  split; [reflexivity|].
  eapply wp_conseq.
  - apply (busy_text_life_cycle demo_pretty "Wait" (demo_active_world "" None false)
             (mk_policy "active") eq_refl).
  - cbv beta. intros r1 w1 t1 (Hr & Hin & Hshow).
    split; [exact Hr|]. split; [exact Hin|].
    eapply wp_conseq; [exact Hshow|]. cbv beta.
    intros r2 w2 t2 (Hr2 & Hin2 & _). split; assumption.
Defined.

Lemma local_code_round_trip_witness :
  Forall2 presses
    [demo_tick None (Returns "1"); demo_tick None (Returns "2");
     demo_tick None (Returns "3")]
    ["1"; "2"; "3"] /\
  Forall (is_digit_key demo_abort_key) ["1"; "2"; "3"] /\
  presses (demo_tick None (Returns "y")) "y" /\
  wp (hsmUxInteraction_interact 2 demo_abort_key false demo_pretty demo_text_end
        ([demo_tick None (Returns "1"); demo_tick None (Returns "2");
          demo_tick None (Returns "3")] ++ [demo_tick None (Returns "y")]))
     tt (demo_active_world "99" None false)
     (fun r w' t =>
        r = Ret StillLooping /\ digits (hsm_ux_obj w') = "" /\
        List.filter is_local_pin t = [EvLocalPin "12"]).
Proof.
  assert (Forall2 presses
            [demo_tick None (Returns "1"); demo_tick None (Returns "2");
             demo_tick None (Returns "3")]
            ["1"; "2"; "3"]) as Henvs
    by (repeat constructor).
  assert (Forall (is_digit_key demo_abort_key) ["1"; "2"; "3"]) as Hkeys
    by (repeat constructor; discriminate).
  assert (presses (demo_tick None (Returns "y")) "y") as Hok
    by (repeat constructor).
  split; [exact Henvs|]. split; [exact Hkeys|]. split; [exact Hok|].
  eapply wp_conseq.
  - apply (local_code_round_trip 2 demo_abort_key false demo_pretty demo_text_end
             [demo_tick None (Returns "1"); demo_tick None (Returns "2");
              demo_tick None (Returns "3")]
             ["1"; "2"; "3"] (demo_tick None (Returns "y"))
             (demo_active_world "99" None false) (mk_policy "active")
             eq_refl Henvs Hkeys).
    + cbn [length]. lia.
    + exact Hok.
  - cbv beta. intros r w' t (Hr & Hd & Hpin & _). repeat split; assumption.
Defined.

Lemma iteration_sleeps_on_empty_queue_witness :
  hsm_active (demo_active_world "" None false) = Some (mk_policy "active") /\
  te_draw_fault (demo_tick None (Throws QueueEmpty)) = None /\
  wp (loop_body 6 demo_abort_key demo_pretty) (demo_tick None (Throws QueueEmpty))
     (demo_active_world "" None false)
     (fun _ _ t =>
        count_events is_gc t = 1 /\ count_events is_poll t = 1 /\
        count_events is_sleep t = 1 /\ In (EvSleep 100) t).
Proof.
  split; [reflexivity|]. split; [reflexivity|].
  eapply wp_conseq.
  - apply (iteration_sleeps_on_empty_queue 6 demo_abort_key demo_pretty
             (demo_tick None (Throws QueueEmpty))
             (demo_active_world "" None false) (mk_policy "active"));
      reflexivity.
  - cbv beta. intros r w' t (Hgc & Hpoll & Hsleep & _).
    destruct (Hsleep eq_refl). repeat split; assumption.
Defined.

Lemma pending_failure_escapes_witness :
  let e := {| te_draw_fault := None; te_poll := Throws QueueEmpty;
              te_pin := Returns tt; te_sleep := Returns tt; te_restart := false;
              te_request :=
                {| ae_story1 := Returns "x"; ae_random := Returns 0;
                   ae_story2 := Returns "1"; ae_done := Throws (Foreign "menu");
                   ae_activate := Returns tt |} |} in
  Foreign "menu" <> AbortInteraction /\
  wp (loop_body 6 demo_abort_key demo_pretty) e
     (demo_active_world "" (Some 0) false)
     (fun res w' t =>
        res = Raise (External (Foreign "menu")) /\
        hsm_active w' = Some (mk_policy "active") /\
        terminal_refused 0 w' /\ count_events is_interact t = 1).
Proof.
  intros e.
  assert (Foreign "menu" <> AbortInteraction) as Hy by discriminate.
  split; [exact Hy|].
  apply (pending_failure_escapes 6 demo_abort_key demo_pretty e
           (demo_active_world "" (Some 0) false) (mk_policy "active") 0
           (set_ux_done false (mk_request (mk_policy "policy") false))
           "policy" "x" (Foreign "menu"));
    try reflexivity; try discriminate.
Defined.

Lemma restart_leaves_the_loop_witness :
  let e := {| te_draw_fault := None; te_poll := Throws QueueEmpty;
              te_pin := Returns tt; te_sleep := Returns tt; te_restart := true;
              te_request := demo_env (Returns "y") 0 (Returns "1") |} in
  idle (demo_active_world "" None false) /\
  wp (hsmUxInteraction_interact 6 demo_abort_key true demo_pretty demo_text_end
        [e; demo_tick None (Returns "1")])
     tt (demo_active_world "" None false)
     (fun r w' t =>
        count_events is_poll t = 1 /\
        r = Ret LoopLeft /\ hsm_active w' = None /\
        exists t0, t = t0 ++ [EvNumpadStart; EvGotoTopMenu]).
Proof.
  intros e.
  assert (idle (demo_active_world "" None false)) as Hidle by exact I.
  split; [exact Hidle|].
  apply (restart_leaves_the_loop 6 demo_abort_key true demo_pretty demo_text_end
           e [demo_tick None (Returns "1")] (demo_active_world "" None false)
           (mk_policy "active") eq_refl Hidle eq_refl eq_refl eq_refl eq_refl).
Defined.

Lemma show_statistics_row_witness :
  hsm_active (demo_active_world "" None false) = Some (mk_policy "active") /\
  wp (show demo_pretty) None (demo_active_world "" None false)
     (fun _ _ t =>
        exists x1 x2 x3 left,
          omap stat_text t = [(x1, "0"); (x2, "0"); (x3, left)] /\
          centred 14 x1 "0" /\ centred 51 x2 "0" /\ centred 96 x3 left /\
          left = " n/a").
Proof.
  split; [reflexivity|].
  eapply wp_conseq.
  - apply (show_statistics_row demo_pretty (demo_active_world "" None false)
             (mk_policy "active") eq_refl).
  - cbv beta.
    intros r w' t (x1 & x2 & x3 & left & Ht & H1 & H2 & H3 & Hn & _).
    exists x1, x2, x3, left.
    split; [exact Ht|]. split; [exact H1|]. split; [exact H2|]. split; [exact H3|].
    apply Hn. reflexivity.
Defined.

Lemma approval_closing_calls_witness :
  heap (demo_world false) !! 0 = Some (mk_request (mk_policy "policy") false) /\
  wp (ApproveHSMPolicy_interact 0) (demo_env (Returns "x") 0 (Returns "1"))
     (demo_world false)
     (fun r w' t =>
        exists presentation,
          count_events is_cleanup presentation = 0 /\
          count_events is_ux_reset presentation = 0 /\
          ((terminal_refused 0 w' /\
            t = presentation ++ [EvCleanup; EvDone 0]) \/
           (terminal_approved 0 w' /\ Returns tt = Returns tt /\ r = Ret tt /\
            t = presentation ++
                [EvCleanup; EvActivate (mk_policy "policy") false; EvUxReset]) \/
           (terminal_approved 0 w' /\ (exists y, Returns tt = Throws y) /\
            t = presentation ++ [EvCleanup; EvActivate (mk_policy "policy") false]))).
Proof.
  split; [reflexivity|].
  apply (approval_closing_calls 0 (mk_request (mk_policy "policy") false)
           (demo_env (Returns "x") 0 (Returns "1")) (demo_world false)).
  reflexivity.
Defined.

Lemma show_needs_active_policy_witness :
  hsm_active (demo_world true) = None /\
  wp (hsmUxInteraction_interact 6 demo_abort_key false demo_pretty demo_text_end
        [demo_tick None (Returns "1")])
     tt (demo_world true)
     (fun r _ t => r = Raise AttributeError /\ count_events is_poll t = 0).
Proof.
  split; [reflexivity|].
  eapply wp_conseq.
  - apply (proj2 (show_needs_active_policy 6 demo_abort_key false demo_pretty
                    demo_text_end)
             (demo_tick None (Returns "1")) [] (demo_world true) eq_refl).
  - cbv beta. intros r w' t (Hr & _ & Hp & _). split; assumption.
Defined.

Lemma heartbeat_counts_iterations_witness :
  wp (lockdown_loop 6 demo_abort_key demo_pretty
        [demo_tick None (Returns "1"); demo_tick None (Throws QueueEmpty)])
     tt (demo_active_world "" None false)
     (fun r w' _ => r = Ret StillLooping /\ phase (hsm_ux_obj w') = 2).
Proof.
  pose proof (heartbeat_counts_iterations 6 demo_abort_key demo_pretty
                [demo_tick None (Returns "1"); demo_tick None (Throws QueueEmpty)]
                (demo_active_world "" None false)) as H.
  unfold wp in *.
  assert ((lockdown_loop 6 demo_abort_key demo_pretty
             [demo_tick None (Returns "1"); demo_tick None (Throws QueueEmpty)]
             tt (demo_active_world "" None false)).1.1 = Ret StillLooping) as Hr
    by (vm_compute; reflexivity).
  split; [exact Hr|].
  destruct (H Hr) as [Hph _]. rewrite Hph by discriminate. reflexivity.
Defined.
